(** * Classic Models dashboard: the query / reshape / chart pipeline

    A shallow embedding of [tutorial.py]: the three SQL statements, the
    pandas reshaping done by the two Dash callbacks [timeline] and
    [products], and the figures they return.

    Conventions of the embedding.
    - Timestamps ([dt], the slider values, [datetime.fromtimestamp]) are
      points of one time axis, modelled as [Z].
    - [sales_amount] is a [numeric]; it is modelled as [Z] (an amount in the
      smallest currency unit).
    - The columns read by the queries are taken to be non-NULL.
    - Where SQL leaves the order of rows open (the order of the groups of a
      GROUP BY, ties of an ORDER BY) the embedding takes groups in order of
      first appearance and sorts stably.
    - [analytics] is the database the module-level handle points at; the
      callbacks read it through the state of the monad [M]. *)

From Stdlib Require Import List ZArith String Bool Lia Permutation Sorted.
From Stdlib Require Import OrdersEx RelationClasses DecimalString.
Import ListNotations.

Local Open Scope string_scope.
Local Open Scope Z_scope.
Local Open Scope list_scope.

(* ================================================================= *)
(** ** Ordered keys *)

(** The comparison protocol that pandas relies on when it sorts group
    keys: a decidable equality and a strict total order. *)
Class Ord (K : Type) : Type := {
  ord_eqb : K -> K -> bool;
  ord_ltb : K -> K -> bool;
  ord_eqb_spec : forall a b, reflect (a = b) (ord_eqb a b);
  ord_ltb_irrefl : forall a, ord_ltb a a = false;
  ord_ltb_trans : forall a b c,
      ord_ltb a b = true -> ord_ltb b c = true -> ord_ltb a c = true;
  ord_ltb_total : forall a b,
      ord_ltb a b = false -> a <> b -> ord_ltb b a = true
}.

Definition ord_lt {K} `{Ord K} (a b : K) : Prop := ord_ltb a b = true.

#[export, refine] Instance Ord_Z : Ord Z :=
  {| ord_eqb := Z.eqb; ord_ltb := Z.ltb |}.
Proof.
  - intros a b. apply Z.eqb_spec.
  - intros a. apply Z.ltb_irrefl.
  - intros a b c H1 H2. apply Z.ltb_lt in H1, H2. apply Z.ltb_lt. lia.
  - intros a b H1 H2. apply Z.ltb_ge in H1. apply Z.ltb_lt. lia.
Defined.

(** Python compares [str] values code point by code point; on the byte
    strings of the embedding that is the lexicographic order below. *)
Definition string_ltb (a b : string) : bool :=
  match String_as_OT.compare a b with Lt => true | _ => false end.

#[export, refine] Instance Ord_string : Ord string :=
  {| ord_eqb := String.eqb; ord_ltb := string_ltb |}.
Proof.
  - intros a b. apply String.eqb_spec.
  - intros a. unfold string_ltb.
    destruct (String_as_OT.compare a a) eqn:E; try reflexivity.
    exfalso. exact (StrictOrder_Irreflexive (R := String_as_OT.lt) a E).
  - intros a b c. unfold string_ltb.
    destruct (String_as_OT.compare a b) eqn:E1; try discriminate.
    destruct (String_as_OT.compare b c) eqn:E2; try discriminate.
    intros _ _.
    now rewrite (StrictOrder_Transitive (R := String_as_OT.lt) a b c E1 E2).
  - intros a b. unfold string_ltb.
    destruct (String_as_OT.compare_spec a b) as [E|L|G]; try congruence.
    intros _ _. unfold String_as_OT.lt in G. now rewrite G.
Defined.

(** Tuples compare lexicographically, as Python tuples do. *)
Definition pair_eqb {A B} `{Ord A} `{Ord B} (p q : A * B) : bool :=
  ord_eqb (fst p) (fst q) && ord_eqb (snd p) (snd q).

Definition pair_ltb {A B} `{Ord A} `{Ord B} (p q : A * B) : bool :=
  ord_ltb (fst p) (fst q)
  || (ord_eqb (fst p) (fst q) && ord_ltb (snd p) (snd q)).

#[export, refine] Instance Ord_pair {A B} `{Ord A} `{Ord B} : Ord (A * B) :=
  {| ord_eqb := pair_eqb; ord_ltb := pair_ltb |}.
Proof.
  - intros [a1 b1] [a2 b2]. unfold pair_eqb. simpl.
    destruct (ord_eqb_spec a1 a2), (ord_eqb_spec b1 b2); simpl;
      constructor; congruence.
  - intros [a b]. unfold pair_ltb. simpl.
    rewrite !ord_ltb_irrefl. now rewrite andb_false_r.
  - intros [a1 b1] [a2 b2] [a3 b3]. unfold pair_ltb. simpl.
    intros H1 H2.
    apply orb_true_iff in H1, H2. apply orb_true_iff.
    destruct H1 as [H1|H1], H2 as [H2|H2].
    + left. eapply ord_ltb_trans; eassumption.
    + apply andb_true_iff in H2. destruct H2 as [E _].
      destruct (ord_eqb_spec a2 a3); [subst|discriminate]. now left.
    + apply andb_true_iff in H1. destruct H1 as [E _].
      destruct (ord_eqb_spec a1 a2); [subst|discriminate]. now left.
    + apply andb_true_iff in H1, H2. destruct H1 as [E1 L1], H2 as [E2 L2].
      destruct (ord_eqb_spec a1 a2); [subst|discriminate].
      right. rewrite E2. simpl. eapply ord_ltb_trans; eassumption.
  - intros [a1 b1] [a2 b2]. unfold pair_ltb. simpl. intros H1 H2.
    apply orb_false_iff in H1. destruct H1 as [L E].
    destruct (ord_eqb_spec a1 a2) as [->|N].
    + simpl in E.
      destruct (ord_eqb_spec a2 a2); [|congruence]. simpl.
      rewrite (ord_ltb_total b1 b2 E); [apply orb_true_r|congruence].
    + rewrite (ord_ltb_total a1 a2 L N). reflexivity.
Defined.

(* ================================================================= *)
(** ** Sorting and grouping *)

Section Sorting.
Context {A : Type}.
Variable leb : A -> A -> bool.

(** Stable insertion sort: [x] goes in front of the first element it is
    not above. *)
Fixpoint insert_sorted (x : A) (l : list A) : list A :=
  match l with
  | [] => [x]
  | h :: t => if leb x h then x :: h :: t else h :: insert_sorted x t
  end.

Fixpoint sort_by (l : list A) : list A :=
  match l with
  | [] => []
  | x :: t => insert_sorted x (sort_by t)
  end.
End Sorting.

Section Grouping.
Context {K : Type} `{Ord K}.

(** The distinct keys of a list, each at its first appearance. *)
Fixpoint uniq (l : list K) : list K :=
  match l with
  | [] => []
  | k :: t => k :: filter (fun k' => negb (ord_eqb k' k)) (uniq t)
  end.

(** Insertion of a key into a strictly ascending list of keys. *)
Fixpoint insert_key (k : K) (l : list K) : list K :=
  match l with
  | [] => [k]
  | h :: t =>
      if ord_ltb k h then k :: h :: t
      else if ord_eqb k h then h :: t
      else h :: insert_key k t
  end.

(** The distinct keys of a list in ascending order. *)
Definition sorted_keys (l : list K) : list K :=
  fold_right insert_key [] l.

Context {R : Type}.
Variable key : R -> K.

Definition rows_of_key (k : K) (rows : list R) : list R :=
  filter (fun r => ord_eqb (key r) k) rows.

(** SQL [GROUP BY]: one group per distinct key; rows keep their order
    inside a group. *)
Definition sql_group_by (rows : list R) : list (K * list R) :=
  map (fun k => (k, rows_of_key k rows)) (uniq (map key rows)).

(** pandas [groupby] with its default [sort=True]: one group per distinct
    key, groups in ascending key order, rows in their original order
    inside a group. *)
Definition groupby (rows : list R) : list (K * list R) :=
  map (fun k => (k, rows_of_key k rows)) (sorted_keys (map key rows)).
End Grouping.

Definition sum (l : list Z) : Z := fold_right Z.add 0 l.

(** SQL [min] over the rows of a group (a group is never empty). *)
Definition min_list (l : list Z) : Z :=
  match l with
  | [] => 0
  | d :: t => fold_left Z.min t d
  end.

(* ================================================================= *)
(** ** The analytics database *)

(** One row of [order_facts] left-joined with [products], [dates] and
    [employees], restricted to the columns the three statements read.
    [year] and [week] are [extract(year from dt)] and
    [extract(week from dt)]. *)
Module Fact.
Record t : Type := mk {
  product_code : string;
  product_name : string;
  country : string;
  dt : Z;
  year : Z;
  week : Z;
  sales_amount : Z
}.
End Fact.

Definition Database : Type := list Fact.t.

(** A row of the result of [timeseries_query]. *)
Module TS.
Record t : Type := mk {
  sales_amount : Z;
  dt : Z;
  year : Z;
  week : Z;
  country : string
}.
End TS.

(** A row of the result of [top_products_query]. *)
Module TP.
Record t : Type := mk {
  product_name : string;
  sales_amount : Z
}.
End TP.

(** A row of the inner table [products_per_country], of the table [t]
    (with its [row_number]) and of the result of
    [top_products_by_country_query]. *)
Module PC.
Record t : Type := mk {
  country : string;
  product_code : string;
  product_name : string;
  sales_amount : Z
}.
End PC.

Module Ranked.
Record t : Type := mk {
  country : string;
  product_name : string;
  sales_amount : Z;
  row_number : nat
}.
End Ranked.

Module TPC.
Record t : Type := mk {
  country : string;
  product_name : string;
  sales_amount : Z
}.
End TPC.

(* ================================================================= *)
(** ** The SQL statements *)

(** [with t as (select ... order by dt)
     select sum(sales_amount), min(dt), year, week, country
     from t group by week, year, country] *)
Definition timeseries_query (db : Database) : list TS.t :=
  let t := sort_by (fun a b => Fact.dt a <=? Fact.dt b) db in
  map (fun kg : (Z * Z * string) * list Fact.t =>
         let '(w, yr, c, g) := kg in
         TS.mk (sum (map Fact.sales_amount g)) (min_list (map Fact.dt g))
               yr w c)
      (sql_group_by (fun r => (Fact.week r, Fact.year r, Fact.country r)) t).

(** [WHERE dt > :start AND dt < :finish] *)
Definition in_window (start finish : Z) (r : Fact.t) : bool :=
  (start <? Fact.dt r) && (Fact.dt r <? finish).

(** [ORDER BY sales_amount DESC] *)
Definition sales_desc {R} (sales : R -> Z) (a b : R) : bool :=
  sales b <=? sales a.

(** [a] may stand before [b] in a descending order of [sales]. *)
Definition desc {R} (sales : R -> Z) (a b : R) : Prop := sales b <= sales a.

(** [SELECT product_name, SUM(sales_amount) ...
     WHERE dt > :start AND dt < :finish
     GROUP BY product_code, product_name
     ORDER BY sales_amount DESC LIMIT :n] *)
Definition top_products_query (db : Database) (n : nat) (start finish : Z)
  : list TP.t :=
  let rows := filter (in_window start finish) db in
  let grouped :=
    map (fun kg : (string * string) * list Fact.t =>
           let '(_, pname, g) := kg in
           TP.mk pname (sum (map Fact.sales_amount g)))
        (sql_group_by (fun r => (Fact.product_code r, Fact.product_name r))
                      rows) in
  firstn n (sort_by (sales_desc TP.sales_amount) grouped).

(** The inner table [products_per_country]. *)
Definition products_per_country (db : Database) (start finish : Z)
  : list PC.t :=
  let rows := filter (in_window start finish) db in
  map (fun kg : (string * string * string) * list Fact.t =>
         let '(pcode, pname, c, g) := kg in
         PC.mk c pcode pname (sum (map Fact.sales_amount g)))
      (sql_group_by (fun r => (Fact.product_code r, Fact.product_name r,
                               Fact.country r))
                    rows).

(** [ROW_NUMBER() OVER (PARTITION BY country ORDER BY sales_amount DESC)]
    on one partition. *)
Definition number_partition (part : list PC.t) : list Ranked.t :=
  map (fun ir : nat * PC.t =>
         Ranked.mk (PC.country (snd ir)) (PC.product_name (snd ir))
                   (PC.sales_amount (snd ir)) (fst ir))
      (combine (seq 1 (List.length part))
               (sort_by (sales_desc PC.sales_amount) part)).

(** The table [t] of [top_products_by_country_query]. *)
Definition ranked_products (db : Database) (start finish : Z)
  : list Ranked.t :=
  flat_map (fun cg : string * list PC.t => number_partition (snd cg))
           (sql_group_by PC.country (products_per_country db start finish)).

(** [SELECT country, product_name, sales_amount::numeric FROM t
     WHERE row_number <= :n] *)
Definition top_ranked (db : Database) (n : nat) (start finish : Z)
  : list Ranked.t :=
  filter (fun r => (Ranked.row_number r <=? n)%nat)
         (ranked_products db start finish).

Definition select_columns (r : Ranked.t) : TPC.t :=
  TPC.mk (Ranked.country r) (Ranked.product_name r) (Ranked.sales_amount r).

Definition top_products_by_country_query
  (db : Database) (n : nat) (start finish : Z) : list TPC.t :=
  map select_columns (top_ranked db n start finish).

(* ================================================================= *)
(** ** Exceptions and the callback monad *)

Inductive exn : Type :=
| KeyError (key : string)
| AttributeError (attr : string)
| ValueError (msg : string).

Definition result (A : Type) : Type := (exn + A)%type.

Definition result_bind {A B} (c : result A) (k : A -> result B) : result B :=
  match c with
  | inl e => inl e
  | inr a => k a
  end.

Notation "x <-? c ;; k" := (result_bind c (fun x => k))
  (at level 61, c at next level, right associativity).

Fixpoint result_map {A B} (f : A -> result B) (l : list A) : result (list B) :=
  match l with
  | [] => inr []
  | a :: t => b <-? f a ;; bs <-? result_map f t ;; inr (b :: bs)
  end.

(** A callback runs against the database behind [analytics]; it returns a
    value or raises, and hands the database on. *)
Definition M (A : Type) : Type := Database -> result A * Database.

Definition ret {A} (a : A) : M A := fun db => (inr a, db).

Definition bind {A B} (c : M A) (k : A -> M B) : M B :=
  fun db =>
    match c db with
    | (inl e, db') => (inl e, db')
    | (inr a, db') => k a db'
    end.

Notation "x <- c ;; k" := (bind c (fun x => k))
  (at level 61, c at next level, right associativity).

Definition lift {A} (r : result A) : M A := fun db => (r, db).

(** [analytics.query(q, **params).as_dict()] for a SELECT statement [q]. *)
Definition analytics_query {A} (q : Database -> list A) : M (list A) :=
  fun db => (inr (q db), db).

(* ================================================================= *)
(** ** Data frames *)

(** A frame: its column labels and its rows, each under its index label.
    [I] is the type of index labels, [R] the type of rows. *)
Record DataFrame (I R : Type) : Type := mkDataFrame {
  columns : list string;
  body : list (I * R)
}.
Arguments mkDataFrame {I R} _ _.
Arguments columns {I R} _.
Arguments body {I R} _.

Definition has_column {I R} (df : DataFrame I R) (c : string) : bool :=
  existsb (String.eqb c) (columns df).

(** [pd.DataFrame(records)] on a list of dicts with keys [cols]: a
    [RangeIndex]; an empty list gives a frame without columns. *)
Definition DataFrame_of {R} (cols : list string) (records : list R)
  : DataFrame nat R :=
  mkDataFrame (match records with [] => [] | _ :: _ => cols end)
              (combine (seq 0 (List.length records)) records).

(** [df.index] *)
Definition index {I R} (df : DataFrame I R) : list I := map fst (body df).

(** [df[col]] *)
Definition getitem {I R V} (df : DataFrame I R) (col : string) (proj : R -> V)
  : result (list V) :=
  if has_column df col then inr (map (fun ir => proj (snd ir)) (body df))
  else inl (KeyError col).

(** [df.col] *)
Definition getattr {I R V} (df : DataFrame I R) (col : string) (proj : R -> V)
  : result (list V) :=
  if has_column df col then inr (map (fun ir => proj (snd ir)) (body df))
  else inl (AttributeError col).

(** [m1 & m2] on boolean columns *)
Definition mask_and (m1 m2 : list bool) : list bool :=
  map (fun p => fst p && snd p) (combine m1 m2).

(** [df[mask]]: the rows whose mask bit is set, under their old labels. *)
Definition boolean_index {I R} (df : DataFrame I R) (mask : list bool)
  : DataFrame I R :=
  mkDataFrame (columns df) (map snd (filter fst (combine mask (body df)))).

(** [df.groupby(by)], iterated: the key columns must exist; the groups come
    in ascending key order and are frames over the old labels. *)
Definition groupby_frame {K} `{Ord K} {I R}
  (df : DataFrame I R) (by_ : list string) (key : R -> K)
  : result (list (K * DataFrame I R)) :=
  match find (fun c => negb (has_column df c)) by_ with
  | Some c => inl (KeyError c)
  | None =>
      inr (map (fun kg => (fst kg, mkDataFrame (columns df) (snd kg)))
               (groupby (fun ir => key (snd ir)) (body df)))
  end.

(** A row of the frame [.agg({'sales_amount': 'sum', 'dt': 'first'})]
    builds. *)
Module Agg.
Record t : Type := mk {
  sales_amount : Z;
  dt : Z
}.
End Agg.

(** ['first'] on the [dt] column of a group (a group is never empty). *)
Definition first_dt (g : list TS.t) : Z :=
  match g with
  | [] => 0
  | r :: _ => TS.dt r
  end.

(** [.agg({'sales_amount': 'sum', 'dt': 'first'})] on the groups of a
    [groupby(['week', 'year'])]: one row per group, labelled by its key. *)
Definition agg_sum_first (groups : list ((Z * Z) * DataFrame nat TS.t))
  : DataFrame (Z * Z) Agg.t :=
  mkDataFrame ["sales_amount"; "dt"]
    (map (fun kg : (Z * Z) * DataFrame nat TS.t =>
            let g := map snd (body (snd kg)) in
            (fst kg, Agg.mk (sum (map TS.sales_amount g)) (first_dt g)))
         groups).

(* ================================================================= *)
(** ** Figures *)

(** A point id: a label of the [RangeIndex], or a [(week, year)] label of
    the aggregated frame. *)
Inductive Id : Type :=
| RowId (i : nat)
| PeriodId (week year : Z).

Module Scatter.
Record t : Type := mk {
  x : list Z;
  y : list Z;
  ids : list Id;
  mode : string;
  name : option string
}.
End Scatter.

Module Bar.
Record t : Type := mk {
  ids : list Id;
  x : list Z;
  y : list string;
  orientation : string;
  name : option string
}.
End Bar.

(** The values of the layout dict: a string, or the axis dict
    [{'automargin': b}]. *)
Inductive LayoutValue : Type :=
| LStr (s : string)
| LAxis (automargin : bool).

Record Figure (T : Type) : Type := mkFigure {
  data : list T;
  layout : list (string * LayoutValue)
}.
Arguments mkFigure {T} _ _.
Arguments data {T} _.
Arguments layout {T} _.

(** The (date, total) pairs a scatter series draws. *)
Definition points (s : Scatter.t) : list (Z * Z) :=
  combine (Scatter.x s) (Scatter.y s).

(** The number of data points of a figure. *)
Definition scatter_points (fig : Figure Scatter.t) : nat :=
  List.length (flat_map points (data fig)).

Definition bar_points (fig : Figure Bar.t) : nat :=
  List.length (flat_map (fun b => combine (Bar.x b) (Bar.y b)) (data fig)).

(* ================================================================= *)
(** ** The callbacks *)

(** [datetime.fromtimestamp(t)].  The conversion of a slider value to a
    naive local datetime is not modelled: a slider value stands for the
    datetime it converts to, so that [start] and [finish] below are the
    values the callbacks compare [dt] with. *)
Definition fromtimestamp (t : Z) : Z := t.

(** [start, finish = [datetime.fromtimestamp(t) for t in time_range]] *)
Definition unpack_range (time_range : list Z) : result (Z * Z) :=
  match map fromtimestamp time_range with
  | [start; finish] => inr (start, finish)
  | _ :: _ :: _ :: _ => inl (ValueError "too many values to unpack")
  | _ => inl (ValueError "not enough values to unpack")
  end.

(** [boxes and 'by_country' in boxes]; the checklist value is [None] or a
    list of strings. *)
Definition split_by_country (boxes : option (list string)) : bool :=
  match boxes with
  | None => false
  | Some [] => false
  | Some l => existsb (String.eqb "by_country") l
  end.

Definition ts_columns : list string :=
  ["sales_amount"; "dt"; "year"; "week"; "country"].

(** [df[(df['dt'] > start) & (df['dt'] < finish)]] *)
Definition filter_window (start finish : Z) (df : DataFrame nat TS.t)
  : result (DataFrame nat TS.t) :=
  after <-? getitem df "dt" TS.dt ;;
  before <-? getitem df "dt" TS.dt ;;
  inr (boolean_index df
         (mask_and (map (fun d => start <? d) after)
                   (map (fun d => d <? finish) before))).

(** The branch taken when the box is ticked: one scatter per group of
    [df.groupby('country')]. *)
Definition timeline_by_country (df : DataFrame nat TS.t)
  : result (list Scatter.t) :=
  groups <-? groupby_frame df ["country"] TS.country ;;
  result_map
    (fun cd : string * DataFrame nat TS.t =>
       let '(country, d) := cd in
       x <-? getattr d "dt" TS.dt ;;
       y <-? getattr d "sales_amount" TS.sales_amount ;;
       inr (Scatter.mk x y (map RowId (index d)) "markers" (Some country)))
    groups.

(** The other branch: [groupby(['week', 'year'])], aggregated, drawn as one
    scatter. *)
Definition timeline_aggregate (df : DataFrame nat TS.t)
  : result (list Scatter.t) :=
  groups <-? groupby_frame df ["week"; "year"]
                           (fun r => (TS.week r, TS.year r)) ;;
  let df' := agg_sum_first groups in
  x <-? getattr df' "dt" Agg.dt ;;
  y <-? getattr df' "sales_amount" Agg.sales_amount ;;
  inr [Scatter.mk x y (map (fun k => PeriodId (fst k) (snd k)) (index df'))
                  "markers" None].

(** The body of [timeline] once the query has returned [dat]. *)
Definition timeline_data (boxes : option (list string)) (start finish : Z)
  (dat : list TS.t) : result (list Scatter.t) :=
  df <-? filter_window start finish (DataFrame_of ts_columns dat) ;;
  if split_by_country boxes then timeline_by_country df
  else timeline_aggregate df.

Definition timeline (boxes : option (list string)) (time_range : list Z)
  : M (Figure Scatter.t) :=
  sf <- lift (unpack_range time_range) ;;
  dat <- analytics_query timeseries_query ;;
  data <- lift (timeline_data boxes (fst sf) (snd sf) dat) ;;
  ret (mkFigure data [("title", LStr "Sales Over Time")]).

(** The two branches of [products], once the query has returned. *)
Definition products_by_country (res : list TPC.t) : result (list Bar.t) :=
  let df := DataFrame_of ["country"; "product_name"; "sales_amount"] res in
  groups <-? groupby_frame df ["product_name"] TPC.product_name ;;
  result_map
    (fun pd : string * DataFrame nat TPC.t =>
       let '(product, d) := pd in
       x <-? getattr d "sales_amount" TPC.sales_amount ;;
       y <-? getattr d "country" TPC.country ;;
       inr (Bar.mk (map RowId (index d)) x y "h" (Some product)))
    groups.

Definition products_aggregate (res : list TP.t) : result (list Bar.t) :=
  let df := DataFrame_of ["product_name"; "sales_amount"] res in
  x <-? getattr df "sales_amount" TP.sales_amount ;;
  y <-? getattr df "product_name" TP.product_name ;;
  inr [Bar.mk (map RowId (index df)) x y "h" None].

Definition products (boxes : option (list string)) (time_range : list Z)
  : M (Figure Bar.t) :=
  sf <- lift (unpack_range time_range) ;;
  data <- (if split_by_country boxes then
             res <- analytics_query
                      (fun db => top_products_by_country_query
                                   db 3 (fst sf) (snd sf)) ;;
             lift (products_by_country res)
           else
             res <- analytics_query
                      (fun db => top_products_query db 5 (fst sf) (snd sf)) ;;
             lift (products_aggregate res)) ;;
  ret (mkFigure data [("title", LStr "Most Profitable Products");
                      ("yaxis", LAxis true);
                      ("barmode", LStr "stack")]).

(* ================================================================= *)
(** ** A small database for concrete runs *)

(** Timestamps are seconds since the epoch: 2003-01-06, 2003-01-08,
    2003-01-14 and 2003-02-11, all at 00:00 UTC. *)
Definition jan06 : Z := 1041811200.
Definition jan08 : Z := 1041984000.
Definition jan14 : Z := 1042502400.
Definition feb11 : Z := 1044921600.

Definition sample_db : Database :=
  [ Fact.mk "S18_1749" "1917 Grand Touring Sedan" "USA" jan06 2003 2 4080;
    Fact.mk "S24_3969" "1936 Mercedes Benz 500k Roadster" "USA" jan08 2003 2
            1729;
    Fact.mk "S18_1749" "1917 Grand Touring Sedan" "France" jan14 2003 3 5100;
    Fact.mk "S18_2248" "1911 Ford Town Car" "USA" jan14 2003 3 3000;
    Fact.mk "S18_2248" "1911 Ford Town Car" "France" feb11 2003 7 2754 ].


(* ================================================================= *)
(** ** Vocabulary of the statements *)

(** [dt] lies strictly inside the window. *)
Definition in_range (start finish : Z) (r : TS.t) : bool :=
  (start <? TS.dt r) && (TS.dt r <? finish).

Definition ts_point (r : TS.t) : Z * Z := (TS.dt r, TS.sales_amount r).

Definition week_year (r : TS.t) : Z * Z := (TS.week r, TS.year r).

(** The rows of [dat] the window keeps, in their order. *)
Definition window_rows (start finish : Z) (dat : list TS.t) : list TS.t :=
  filter (in_range start finish) dat.

Definition window_frame (start finish : Z) (dat : list TS.t)
  : DataFrame nat TS.t :=
  mkDataFrame ts_columns
    (filter (fun ir => in_range start finish (snd ir))
            (combine (seq 0 (List.length dat)) dat)).

Definition country_series (cg : string * list (nat * TS.t)) : Scatter.t :=
  Scatter.mk (map (fun ir => TS.dt (snd ir)) (snd cg))
             (map (fun ir => TS.sales_amount (snd ir)) (snd cg))
             (map RowId (map fst (snd cg)))
             "markers" (Some (fst cg)).

Definition period_point (g : list TS.t) : Z * Z :=
  (first_dt g, sum (map TS.sales_amount g)).

(** The grouping key of [timeseries_query], on a row of its result and on
    a row of the database. *)
Definition ts_key (r : TS.t) : Z * Z * string :=
  (TS.week r, TS.year r, TS.country r).

Definition fact_key (f : Fact.t) : Z * Z * string :=
  (Fact.week f, Fact.year f, Fact.country f).

(** A database whose sales are all made in the USA. *)
Definition usa_db : Database :=
  [ Fact.mk "S18_1749" "1917 Grand Touring Sedan" "USA" jan06 2003 2 4080;
    Fact.mk "S24_3969" "1936 Mercedes Benz 500k Roadster" "USA" jan14 2003 3
            1729 ].

(** 2004-01-02, in ISO week 1 of 2004, and a database with one sale in the
    USA in week 2 of 2003 and one in week 1 of 2004. *)
Definition jan02_2004 : Z := 1073001600.

Definition usa_two_years : Database :=
  [ Fact.mk "S18_1749" "1917 Grand Touring Sedan" "USA" jan06 2003 2 4080;
    Fact.mk "S24_3969" "1936 Mercedes Benz 500k Roadster" "USA" jan02_2004
            2004 1 1729 ].

(** The query result of a database whose first sale is in the USA and whose
    second is in France, one week later. *)
Definition usa_then_france : list TS.t :=
  [ TS.mk 5809 jan06 2003 2 "USA"; TS.mk 5100 jan14 2003 3 "France" ].

(* ================================================================= *)
(** ** Start-up: the range of the data *)

(** SQL [max], [min] over a column: NULL on an empty table. *)
Definition max_list (l : list Z) : Z :=
  match l with
  | [] => 0
  | d :: t => fold_left Z.max t d
  end.

Definition sql_min (l : list Z) : option Z :=
  match l with
  | [] => None
  | _ :: _ => Some (min_list l)
  end.

Definition sql_max (l : list Z) : option Z :=
  match l with
  | [] => None
  | _ :: _ => Some (max_list l)
  end.

(** [select min(dt), max(dt) from order_facts left join dates on
    date_id=id]: an aggregate without GROUP BY, so exactly one row. *)
Definition timerange_query (db : Database) : option Z * option Z :=
  (sql_min (map Fact.dt db), sql_max (map Fact.dt db)).

(** [d = analytics.query(query).as_dict()[0]; return d['min'], d['max']] *)
Definition get_data_timerange : M (option Z * option Z) :=
  fun db => (inr (timerange_query db), db).

(* ================================================================= *)
(** ** Start-up: the marks of the slider *)

(** A naive [datetime]: a calendar date and the second of the day (hour,
    minute and second in one number; fractions of a second are left
    out). *)
Module DT.
Record t : Type := mk {
  year : Z;
  month : Z;
  day : Z;
  second : Z
}.
End DT.

(** [calendar.isleap] *)
Definition is_leap (y : Z) : bool :=
  (y mod 4 =? 0) && (negb (y mod 100 =? 0) || (y mod 400 =? 0)).

(** [calendar.monthrange(year, month)[1]] *)
Definition days_in_month (y m : Z) : Z :=
  if m =? 2 then (if is_leap y then 29 else 28)
  else if (m =? 4) || (m =? 6) || (m =? 9) || (m =? 11) then 30
  else 31.

(** What every [datetime] object satisfies. *)
Definition valid_datetime (d : DT.t) : Prop :=
  1 <= DT.year d <= 9999
  /\ 1 <= DT.month d <= 12
  /\ 1 <= DT.day d <= days_in_month (DT.year d) (DT.month d)
  /\ 0 <= DT.second d < 86400.

(** [a <= b] on datetimes: by year, then month, then day, then time. *)
Definition dt_leb (a b : DT.t) : bool :=
  if DT.year a <? DT.year b then true
  else if DT.year b <? DT.year a then false
  else if DT.month a <? DT.month b then true
  else if DT.month b <? DT.month a then false
  else if DT.day a <? DT.day b then true
  else if DT.day b <? DT.day a then false
  else DT.second a <=? DT.second b.

(** [d + relativedelta(months=3)]: the month moves on by three, the year
    by one when the month passes December, the day is cut to the length
    of the new month, the time stays; [datetime.replace] refuses a year
    after 9999. *)
Definition plus_three_months (d : DT.t) : result DT.t :=
  let month := DT.month d + 3 in
  let year := if month >? 12 then DT.year d + 1 else DT.year d in
  let month := if month >? 12 then month - 12 else month in
  let day := Z.min (days_in_month year month) (DT.day d) in
  if year >? 9999 then inl (ValueError "year 10000 is out of range")
  else inr (DT.mk year month day (DT.second d)).

(** The loop of [get_marks]: [None] when the fuel runs out before the
    loop ends. *)
Fixpoint marks_loop (fuel : nat) (current end_ : DT.t)
  : option (result (list DT.t)) :=
  if dt_leb current end_ then
    match fuel with
    | O => None
    | S fuel' =>
        match plus_three_months current with
        | inl e => Some (inl e)
        | inr next =>
            match marks_loop fuel' next end_ with
            | Some (inr rest) => Some (inr (current :: rest))
            | other => other
            end
        end
    end
  else Some (inr []).

(** The months since year 0, and a number of iterations the loop cannot
    exceed. *)
Definition month_index (d : DT.t) : Z := DT.year d * 12 + DT.month d.

Definition marks_fuel (start end_ : DT.t) : nat :=
  S (Z.to_nat (month_index end_ - month_index start)).

(** [datetime.date.toordinal]: the days since the eve of 0001-01-01. *)
Definition days_before_year (y : Z) : Z :=
  (y - 1) * 365 + (y - 1) / 4 - (y - 1) / 100 + (y - 1) / 400.

Definition days_before_month (y m : Z) : Z :=
  nth (Z.to_nat m) [0; 0; 31; 59; 90; 120; 151; 181; 212; 243; 273; 304; 334] 0
  + (if (2 <? m) && is_leap y then 1 else 0).

Definition ordinal (d : DT.t) : Z :=
  days_before_year (DT.year d) + days_before_month (DT.year d) (DT.month d)
  + DT.day d.

(** [int(m.timestamp())], for a process whose local time is UTC. *)
Definition timestamp (d : DT.t) : Z :=
  (ordinal d - 719163) * 86400 + DT.second d.

Definition decimal (z : Z) : string :=
  NilZero.string_of_uint (N.to_uint (Z.to_N z)).

(** [m.strftime('%Y-%m')] *)
Definition strftime_Y_m (d : DT.t) : string :=
  String.append (decimal (DT.year d))
    (String.append "-"
       (String.append (if DT.month d <? 10 then "0" else "")
                      (decimal (DT.month d)))).

(** [d[k] = v] on a dict kept in insertion order. *)
Fixpoint dict_set (k : Z) (v : string) (d : list (Z * string))
  : list (Z * string) :=
  match d with
  | [] => [(k, v)]
  | (k', v') :: t =>
      if k' =? k then (k, v) :: t else (k', v') :: dict_set k v t
  end.

(** [{int(m.timestamp()): m.strftime('%Y-%m') for m in result}] *)
Definition marks_dict (result : list DT.t) : list (Z * string) :=
  fold_left (fun d m => dict_set (timestamp m) (strftime_Y_m m) d) result [].

Definition get_marks (start end_ : DT.t)
  : option (result (list (Z * string))) :=
  match marks_loop (marks_fuel start end_) start end_ with
  | None => None
  | Some (inl e) => Some (inl e)
  | Some (inr result) => Some (inr (marks_dict result))
  end.

Definition valid_month (d : DT.t) : Prop := 1 <= DT.month d <= 12.

(** Each datetime of the list is the one before it plus three months. *)
Fixpoint three_months_apart (ms : list DT.t) : Prop :=
  match ms with
  | a :: (b :: _) as rest =>
      plus_three_months a = inr b /\ three_months_apart rest
  | _ => True
  end.

(** 2003-01-06 and 2005-05-31, both at midnight. *)
Definition first_order : DT.t := DT.mk 2003 1 6 0.
Definition last_order : DT.t := DT.mk 2005 5 31 0.

(** 2003-01-31 at 10:00, and 9999-11-15 at midnight. *)
Definition month_end : DT.t := DT.mk 2003 1 31 36000.
Definition last_quarter : DT.t := DT.mk 9999 11 15 0.

(** The entry of the dict for one mark. *)
Definition mark_item (m : DT.t) : Z * string :=
  (timestamp m, strftime_Y_m m).

(* ================================================================= *)
(** ** Further vocabulary *)

(** The table [top_products_query] sorts and cuts: one row per
    (product_code, product_name) sold inside the window. *)
Definition product_totals (db : Database) (start finish : Z) : list TP.t :=
  map (fun kg : (string * string) * list Fact.t =>
         let '(_, pname, g) := kg in
         TP.mk pname (sum (map Fact.sales_amount g)))
      (sql_group_by (fun r => (Fact.product_code r, Fact.product_name r))
                    (filter (in_window start finish) db)).

(** The database without the sales dated [lo] or [hi]. *)
Definition without_dates (lo hi : Z) (db : Database) : Database :=
  filter (fun f => negb ((Fact.dt f =? lo) || (Fact.dt f =? hi))) db.

(** The figures the callbacks wrap their series in. *)
Definition timeline_figure (r : result (list Scatter.t))
  : result (Figure Scatter.t) :=
  match r with
  | inl e => inl e
  | inr series => inr (mkFigure series [("title", LStr "Sales Over Time")])
  end.

Definition products_figure (r : result (list Bar.t))
  : result (Figure Bar.t) :=
  match r with
  | inl e => inl e
  | inr series =>
      inr (mkFigure series [("title", LStr "Most Profitable Products");
                            ("yaxis", LAxis true);
                            ("barmode", LStr "stack")])
  end.

(** The sum of the y values a timeline draws. *)
Definition total_y (data : list Scatter.t) : Z :=
  sum (flat_map Scatter.y data).

(** The bars of a products chart, as (sales amount, axis label) pairs. *)
Definition bars (data : list Bar.t) : list (Z * string) :=
  flat_map (fun b => combine (Bar.x b) (Bar.y b)) data.

(* ================================================================= *)
(** * Properties *)

(** ** Concrete runs *)

Example timeseries_query_sample :
  timeseries_query sample_db
  = [ TS.mk 5809 jan06 2003 2 "USA";
      TS.mk 5100 jan14 2003 3 "France";
      TS.mk 3000 jan14 2003 3 "USA";
      TS.mk 2754 feb11 2003 7 "France" ].
Proof. reflexivity. Qed.

Example timeline_unsplit_sample :
  fst (timeline None [0; feb11 + 1] sample_db)
  = inr (mkFigure
           [ Scatter.mk [jan06; jan14; feb11] [5809; 8100; 2754]
                        [PeriodId 2 2003; PeriodId 3 2003; PeriodId 7 2003]
                        "markers" None ]
           [("title", LStr "Sales Over Time")]).
Proof. reflexivity. Qed.

Example timeline_split_sample :
  fst (timeline (Some ["by_country"]) [0; feb11 + 1] sample_db)
  = inr (mkFigure
           [ Scatter.mk [jan14; feb11] [5100; 2754] [RowId 1; RowId 3]
                        "markers" (Some "France");
             Scatter.mk [jan06; jan14] [5809; 3000] [RowId 0; RowId 2]
                        "markers" (Some "USA") ]
           [("title", LStr "Sales Over Time")]).
Proof. reflexivity. Qed.

Example top_products_sample :
  top_products_query sample_db 2 0 (feb11 + 1)
  = [ TP.mk "1917 Grand Touring Sedan" 9180;
      TP.mk "1911 Ford Town Car" 5754 ].
Proof. reflexivity. Qed.

Example ranked_products_sample :
  ranked_products sample_db 0 (feb11 + 1)
  = [ Ranked.mk "USA" "1917 Grand Touring Sedan" 4080 1;
      Ranked.mk "USA" "1911 Ford Town Car" 3000 2;
      Ranked.mk "USA" "1936 Mercedes Benz 500k Roadster" 1729 3;
      Ranked.mk "France" "1917 Grand Touring Sedan" 5100 1;
      Ranked.mk "France" "1911 Ford Town Car" 2754 2 ].
Proof. reflexivity. Qed.

Example products_split_sample :
  fst (products (Some ["by_country"]) [0; feb11 + 1] sample_db)
  = inr (mkFigure
           [ Bar.mk [RowId 1; RowId 4] [3000; 2754] ["USA"; "France"] "h"
                    (Some "1911 Ford Town Car");
             Bar.mk [RowId 0; RowId 3] [4080; 5100] ["USA"; "France"] "h"
                    (Some "1917 Grand Touring Sedan");
             Bar.mk [RowId 2] [1729] ["USA"] "h"
                    (Some "1936 Mercedes Benz 500k Roadster") ]
           [("title", LStr "Most Profitable Products");
            ("yaxis", LAxis true);
            ("barmode", LStr "stack")]).
Proof. reflexivity. Qed.

(** ** Sorting *)

Lemma firstn_In {A} (x : A) (n : nat) (l : list A) :
  In x (firstn n l) -> In x l.
Proof.
  revert l. induction n as [|n IH]; intros [|h t]; simpl; try tauto.
  intros [E|I]; [now left | right; now apply IH].
Qed.

Section SortingFacts.
Context {A : Type}.
Variable leb : A -> A -> bool.

Lemma insert_sorted_perm (x : A) (l : list A) :
  Permutation (insert_sorted leb x l) (x :: l).
Proof.
  induction l as [|h t IH]; simpl.
  - reflexivity.
  - destruct (leb x h).
    + reflexivity.
    + rewrite IH. apply perm_swap.
Qed.

Lemma sort_by_perm (l : list A) : Permutation (sort_by leb l) l.
Proof.
  induction l as [|x t IH]; simpl.
  - reflexivity.
  - rewrite insert_sorted_perm. now constructor.
Qed.

Lemma sort_by_length (l : list A) :
  List.length (sort_by leb l) = List.length l.
Proof. apply Permutation_length, sort_by_perm. Qed.

Lemma sort_by_In (x : A) (l : list A) : In x (sort_by leb l) <-> In x l.
Proof.
  split; apply Permutation_in;
    [apply sort_by_perm | symmetry; apply sort_by_perm].
Qed.
End SortingFacts.

Section DescendingFacts.
Context {R : Type}.
Variable sales : R -> Z.

Lemma insert_desc_sorted (x : R) (l : list R) :
  StronglySorted (desc sales) l ->
  StronglySorted (desc sales) (insert_sorted (sales_desc sales) x l).
Proof.
  induction 1 as [|h t Ht IH Hh]; simpl.
  - repeat constructor.
  - unfold sales_desc at 1. destruct (Z.leb_spec (sales h) (sales x)) as [L|G].
    + constructor; [now constructor|].
      constructor; [exact L|].
      eapply Forall_impl; [|exact Hh].
      unfold desc. intros b Hb. lia.
    + constructor; [exact IH|].
      eapply Permutation_Forall.
      * symmetry. apply insert_sorted_perm.
      * constructor; [unfold desc; lia | exact Hh].
Qed.

Lemma sort_desc_sorted (l : list R) :
  StronglySorted (desc sales) (sort_by (sales_desc sales) l).
Proof.
  induction l as [|x t IH]; simpl.
  - constructor.
  - now apply insert_desc_sorted.
Qed.

Lemma firstn_sorted (n : nat) (l : list R) :
  StronglySorted (desc sales) l -> StronglySorted (desc sales) (firstn n l).
Proof.
  intros Hl. revert n.
  induction Hl as [|h t Ht IH Hh]; intros [|n]; simpl; try constructor.
  - apply IH.
  - apply Forall_forall. intros b Hb.
    rewrite Forall_forall in Hh. apply Hh.
    apply (firstn_In b n t Hb).
Qed.

Lemma sorted_map_desc (l : list R) :
  StronglySorted (desc sales) l ->
  StronglySorted Z.ge (map sales l).
Proof.
  induction 1 as [|h t Ht IH Hh]; simpl; constructor.
  - exact IH.
  - rewrite Forall_forall in *. intros z Hz.
    apply in_map_iff in Hz. destruct Hz as [b [<- Hb]].
    specialize (Hh b Hb). unfold desc in Hh. lia.
Qed.
End DescendingFacts.

(** ** Grouping *)

Section GroupingFacts.
Context {K : Type} `{Ord K}.

Lemma ord_eqb_eq (a b : K) : ord_eqb a b = true <-> a = b.
Proof. destruct (ord_eqb_spec a b); split; congruence. Qed.

Lemma ord_eqb_refl (a : K) : ord_eqb a a = true.
Proof. now apply ord_eqb_eq. Qed.

Lemma ord_eqb_neq (a b : K) : ord_eqb a b = false <-> a <> b.
Proof. destruct (ord_eqb_spec a b); split; congruence. Qed.

Lemma ord_lt_neq (a b : K) : ord_lt a b -> a <> b.
Proof.
  unfold ord_lt. intros L ->. rewrite ord_ltb_irrefl in L. discriminate.
Qed.

Lemma uniq_In (k : K) (l : list K) : In k (uniq l) <-> In k l.
Proof.
  induction l as [|h t IH]; simpl; [tauto|].
  rewrite filter_In, IH, negb_true_iff, ord_eqb_neq.
  destruct (ord_eqb_spec k h) as [->|N]; [tauto|].
  split; [intros [E|[I _]]|intros [E|I]]; auto; congruence.
Qed.

Lemma uniq_NoDup (l : list K) : NoDup (uniq l).
Proof.
  induction l as [|h t IH]; simpl; constructor.
  - rewrite filter_In, negb_true_iff, ord_eqb_neq. tauto.
  - now apply NoDup_filter.
Qed.

Lemma insert_key_In (x k : K) (l : list K) :
  In x (insert_key k l) <-> x = k \/ In x l.
Proof.
  induction l as [|h t IH]; simpl.
  - intuition.
  - destruct (ord_ltb k h); simpl; [intuition|].
    destruct (ord_eqb_spec k h) as [->|N]; simpl; [intuition|].
    rewrite IH. intuition.
Qed.

Lemma sorted_keys_In (x : K) (l : list K) :
  In x (sorted_keys l) <-> In x l.
Proof.
  induction l as [|h t IH]; simpl; [tauto|].
  rewrite insert_key_In, IH. intuition.
Qed.

Lemma insert_key_sorted (k : K) (l : list K) :
  StronglySorted ord_lt l -> StronglySorted ord_lt (insert_key k l).
Proof.
  induction 1 as [|h t Ht IH Hh]; simpl.
  - repeat constructor.
  - destruct (ord_ltb k h) eqn:L.
    + constructor; [now constructor|].
      constructor; [exact L|].
      eapply Forall_impl; [|exact Hh].
      intros b Hb. eapply ord_ltb_trans; eassumption.
    + destruct (ord_eqb_spec k h) as [->|N]; [now constructor|].
      constructor; [exact IH|].
      rewrite Forall_forall in *. intros b Hb.
      apply insert_key_In in Hb. destruct Hb as [->|Hb].
      * apply ord_ltb_total; assumption.
      * now apply Hh.
Qed.

Lemma sorted_keys_sorted (l : list K) : StronglySorted ord_lt (sorted_keys l).
Proof.
  induction l as [|h t IH]; simpl.
  - constructor.
  - now apply insert_key_sorted.
Qed.

Lemma sorted_NoDup (l : list K) : StronglySorted ord_lt l -> NoDup l.
Proof.
  induction 1 as [|h t Ht IH Hh]; constructor; [|exact IH].
  intros I. rewrite Forall_forall in Hh.
  exact (ord_lt_neq h h (Hh h I) eq_refl).
Qed.

Lemma sorted_keys_NoDup (l : list K) : NoDup (sorted_keys l).
Proof. apply sorted_NoDup, sorted_keys_sorted. Qed.

Context {R : Type}.
Variable key : R -> K.

Lemma rows_of_key_In (k : K) (r : R) (rows : list R) :
  In r (rows_of_key key k rows) <-> In r rows /\ key r = k.
Proof. unfold rows_of_key. now rewrite filter_In, ord_eqb_eq. Qed.

Lemma rows_of_key_nonempty (k : K) (rows : list R) :
  In k (map key rows) -> rows_of_key key k rows <> [].
Proof.
  intros I E. apply in_map_iff in I. destruct I as [r [Hk Hr]].
  assert (In r (rows_of_key key k rows)) as I
      by now apply rows_of_key_In.
  rewrite E in I. exact I.
Qed.

Lemma rows_of_key_cons (k : K) (r : R) (rows : list R) :
  rows_of_key key k (r :: rows)
  = if ord_eqb (key r) k then r :: rows_of_key key k rows
    else rows_of_key key k rows.
Proof. reflexivity. Qed.

Lemma groups_skip (r : R) (rows : list R) (ks : list K) :
  ~ In (key r) ks ->
  flat_map (fun k => rows_of_key key k (r :: rows)) ks
  = flat_map (fun k => rows_of_key key k rows) ks.
Proof.
  induction ks as [|k ks IH]; cbn [flat_map]; [reflexivity|].
  intros N. rewrite rows_of_key_cons.
  destruct (ord_eqb_spec (key r) k) as [E|_].
  - exfalso. apply N. now left.
  - f_equal. apply IH. intros I. apply N. now right.
Qed.

Lemma groups_cons (r : R) (rows : list R) (ks : list K) :
  NoDup ks -> In (key r) ks ->
  Permutation (flat_map (fun k => rows_of_key key k (r :: rows)) ks)
              (r :: flat_map (fun k => rows_of_key key k rows) ks).
Proof.
  induction 1 as [|k ks Hk Hks IH]; [contradiction|].
  intros Hr. cbn [flat_map]. rewrite rows_of_key_cons.
  destruct (ord_eqb_spec (key r) k) as [E|N].
  - subst k. rewrite (groups_skip r rows ks Hk). reflexivity.
  - destruct Hr as [E|Hr]; [congruence|].
    rewrite (IH Hr). symmetry. apply Permutation_middle.
Qed.

(** The groups of a list of distinct keys that covers the rows are a
    partition of the rows. *)
Lemma groups_partition (ks : list K) (rows : list R) :
  NoDup ks ->
  (forall r, In r rows -> In (key r) ks) ->
  Permutation (flat_map (fun k => rows_of_key key k rows) ks) rows.
Proof.
  intros Hks. induction rows as [|r rows IH]; intros Hcover.
  - clear. induction ks; simpl; auto.
  - rewrite groups_cons; [|exact Hks|apply Hcover; now left].
    constructor. apply IH. intros r' I. apply Hcover. now right.
Qed.
End GroupingFacts.

(** ** Frames *)

Lemma result_map_map_ok {A B C} (g : B -> result C) (h : A -> B)
  (f : A -> C) (l : list A) :
  (forall a, In a l -> g (h a) = inr (f a)) ->
  result_map g (map h l) = inr (map f l).
Proof.
  intros Hg. induction l as [|a t IH]; simpl; [reflexivity|].
  rewrite (Hg a (or_introl eq_refl)). simpl.
  rewrite IH; [reflexivity|]. intros b Hb. apply Hg. now right.
Qed.

Lemma map_filter_comm {A B} (f : A -> B) (p : B -> bool) (l : list A) :
  map f (filter (fun a => p (f a)) l) = filter p (map f l).
Proof.
  induction l as [|a t IH]; simpl; [reflexivity|].
  destruct (p (f a)); simpl; now rewrite IH.
Qed.

Lemma map_snd_combine_seq {R} (rows : list R) (a : nat) :
  map snd (combine (seq a (List.length rows)) rows) = rows.
Proof.
  revert a. induction rows as [|r t IH]; intros a; simpl; [reflexivity|].
  now rewrite IH.
Qed.

(** The mask [(col > start) & (col < finish)] selects by the conjunction. *)
Lemma boolean_index_body {I R} (f g : I * R -> bool) (l : list (I * R)) :
  map snd (filter fst (combine (mask_and (map f l) (map g l)) l))
  = filter (fun ir => f ir && g ir) l.
Proof.
  unfold mask_and. induction l as [|ir t IH]; simpl; [reflexivity|].
  destruct (f ir && g ir); simpl; now rewrite IH.
Qed.

Lemma filter_window_ok (start finish : Z) (df : DataFrame nat TS.t) :
  has_column df "dt" = true ->
  filter_window start finish df
  = inr (mkDataFrame (columns df)
           (filter (fun ir => in_range start finish (snd ir)) (body df))).
Proof.
  intros Hc. unfold filter_window, getitem. rewrite Hc. simpl.
  unfold boolean_index. f_equal. f_equal.
  rewrite !map_map.
  apply (boolean_index_body (fun ir => start <? TS.dt (snd ir))
                            (fun ir => TS.dt (snd ir) <? finish)).
Qed.

Lemma in_range_spec (start finish : Z) (r : TS.t) :
  in_range start finish r = true <-> start < TS.dt r < finish.
Proof.
  unfold in_range. rewrite andb_true_iff, !Z.ltb_lt. tauto.
Qed.

(** C1. For a window with [start <= finish], the filtering step of
    [timeline] returns a frame with the same columns that keeps exactly the
    rows whose [dt] lies strictly between [start] and [finish]; a row
    dated [start] or [finish] is not kept. *)
Theorem filter_window_open_interval
  (start finish : Z) (df : DataFrame nat TS.t) :
  start <= finish ->
  has_column df "dt" = true ->
  exists df',
    filter_window start finish df = inr df'
    /\ columns df' = columns df
    /\ (forall ir, In ir (body df') <->
                   In ir (body df) /\ start < TS.dt (snd ir) < finish)
    /\ (forall ir, In ir (body df) ->
                   TS.dt (snd ir) = start \/ TS.dt (snd ir) = finish ->
                   ~ In ir (body df')).
Proof.
  intros _ Hc. eexists. split; [apply (filter_window_ok _ _ _ Hc)|].
  simpl. split; [reflexivity|]. split.
  - intros ir. now rewrite filter_In, in_range_spec.
  - intros ir _ Hd I. apply filter_In in I. destruct I as [_ I].
    apply in_range_spec in I. lia.
Qed.

Lemma filter_window_open_interval_witness :
  jan06 <= feb11
  /\ has_column (DataFrame_of ts_columns (timeseries_query sample_db)) "dt"
     = true
  /\ exists df',
      filter_window jan06 feb11
        (DataFrame_of ts_columns (timeseries_query sample_db)) = inr df'
      /\ columns df' = ts_columns
      /\ (forall ir, In ir (body df') <->
            In ir (body (DataFrame_of ts_columns (timeseries_query sample_db)))
            /\ jan06 < TS.dt (snd ir) < feb11)
      /\ (forall ir,
            In ir (body (DataFrame_of ts_columns (timeseries_query sample_db)))
            -> TS.dt (snd ir) = jan06 \/ TS.dt (snd ir) = feb11 ->
            ~ In ir (body df')).
Proof.
  split; [vm_compute; discriminate|].
  split; [reflexivity|].
  apply (filter_window_open_interval jan06 feb11
           (DataFrame_of ts_columns (timeseries_query sample_db))).
  - vm_compute; discriminate.
  - reflexivity.
Defined.

(** ** The two branches of [timeline] *)

Lemma combine_map {A B C} (f : A -> B) (g : A -> C) (l : list A) :
  combine (map f l) (map g l) = map (fun a => (f a, g a)) l.
Proof. induction l; simpl; congruence. Qed.

Lemma window_frame_rows (start finish : Z) (dat : list TS.t) :
  map snd (body (window_frame start finish dat))
  = window_rows start finish dat.
Proof.
  unfold window_frame, window_rows. simpl.
  rewrite (map_filter_comm snd (in_range start finish)).
  now rewrite map_snd_combine_seq.
Qed.

Lemma filter_window_frame (start finish : Z) (dat : list TS.t) :
  dat <> [] ->
  filter_window start finish (DataFrame_of ts_columns dat)
  = inr (window_frame start finish dat).
Proof.
  intros Hd. destruct dat as [|r t]; [congruence|].
  now rewrite filter_window_ok.
Qed.

Lemma timeline_by_country_ok (df : DataFrame nat TS.t) :
  columns df = ts_columns ->
  timeline_by_country df
  = inr (map country_series
             (groupby (fun ir => TS.country (snd ir)) (body df))).
Proof.
  intros Hc. unfold timeline_by_country, groupby_frame, has_column.
  rewrite Hc. simpl.
  apply result_map_map_ok. intros [c g] _. reflexivity.
Qed.

Lemma timeline_aggregate_ok (df : DataFrame nat TS.t) :
  columns df = ts_columns ->
  exists s,
    timeline_aggregate df = inr [s]
    /\ points s
       = map (fun k => period_point
                (rows_of_key week_year k (map snd (body df))))
             (sorted_keys (map week_year (map snd (body df))))
    /\ Scatter.ids s
       = map (fun k => PeriodId (fst k) (snd k))
             (sorted_keys (map week_year (map snd (body df))))
    /\ Scatter.name s = None.
Proof.
  intros Hc. unfold timeline_aggregate, groupby_frame, has_column.
  rewrite Hc. simpl. eexists. split; [reflexivity|].
  unfold points, index, groupby. simpl.
  rewrite (map_map snd week_year).
  change (fun x : nat * TS.t => week_year (snd x))
    with (fun ir : nat * TS.t => (TS.week (snd ir), TS.year (snd ir))).
  set (ks := sorted_keys _).
  rewrite !map_map. simpl. rewrite combine_map.
  split; [|split]; try reflexivity.
  apply map_ext. intros k. unfold period_point, rows_of_key.
  now rewrite <- (map_filter_comm snd (fun r => ord_eqb (week_year r) k)).
Qed.

Lemma timeline_data_nonempty (boxes : option (list string))
  (start finish : Z) (dat : list TS.t) :
  dat <> [] ->
  timeline_data boxes start finish dat
  = if split_by_country boxes
    then timeline_by_country (window_frame start finish dat)
    else timeline_aggregate (window_frame start finish dat).
Proof.
  intros Hd. unfold timeline_data.
  now rewrite (filter_window_frame start finish dat Hd).
Qed.

Lemma Forall2_map_r {A B} (P : A -> B -> Prop) (f : A -> B) (l : list A) :
  (forall a, In a l -> P a (f a)) -> Forall2 P l (map f l).
Proof.
  induction l as [|a t IH]; intros Hp; simpl; constructor.
  - apply Hp. now left.
  - apply IH. intros b Hb. apply Hp. now right.
Qed.

(** C7. With the box unticked and a non-empty query result, [timeline]
    draws one scatter with exactly one point per (week, year) period of the
    rows inside the window: the periods are pairwise distinct, each period
    with a row has its point, the point's y is the sum of [sales_amount]
    over the rows of the period and its x is the [dt] of the first of
    them. *)
Theorem timeline_aggregate_one_point_per_period
  (boxes : option (list string)) (start finish : Z) (dat : list TS.t) :
  split_by_country boxes = false ->
  dat <> [] ->
  exists s periods,
    timeline_data boxes start finish dat = inr [s]
    /\ NoDup periods
    /\ (forall k, In k periods <->
                  exists r, In r (window_rows start finish dat)
                            /\ week_year r = k)
    /\ Scatter.ids s = map (fun k => PeriodId (fst k) (snd k)) periods
    /\ Forall2
         (fun k p =>
            exists r g,
              rows_of_key week_year k (window_rows start finish dat) = r :: g
              /\ p = (TS.dt r, sum (map TS.sales_amount (r :: g))))
         periods (points s).
Proof.
  intros Hb Hd. rewrite (timeline_data_nonempty _ _ _ _ Hd), Hb.
  destruct (timeline_aggregate_ok (window_frame start finish dat) eq_refl)
    as [s [Hs [Hp [Hi Hn]]]].
  rewrite window_frame_rows in Hp, Hi.
  exists s, (sorted_keys (map week_year (window_rows start finish dat))).
  split; [exact Hs|]. split; [apply sorted_keys_NoDup|].
  split; [|split; [exact Hi|]].
  - intros k. rewrite sorted_keys_In, in_map_iff.
    split; intros [r [H1 H2]]; exists r; tauto.
  - rewrite Hp. apply Forall2_map_r. intros k Hk.
    apply (proj1 (sorted_keys_In _ _)) in Hk.
    pose proof (rows_of_key_nonempty week_year k _ Hk) as Hne.
    destruct (rows_of_key week_year k (window_rows start finish dat))
      as [|r g]; [congruence|].
    exists r, g. split; reflexivity.
Qed.

Lemma timeline_aggregate_one_point_per_period_witness :
  split_by_country None = false
  /\ timeseries_query sample_db <> []
  /\ exists s periods,
      timeline_data None jan06 (feb11 + 1) (timeseries_query sample_db)
      = inr [s]
      /\ NoDup periods
      /\ (forall k, In k periods <->
            exists r,
              In r (window_rows jan06 (feb11 + 1) (timeseries_query sample_db))
              /\ week_year r = k)
      /\ Scatter.ids s = map (fun k => PeriodId (fst k) (snd k)) periods
      /\ Forall2
           (fun k p =>
              exists r g,
                rows_of_key week_year k
                  (window_rows jan06 (feb11 + 1) (timeseries_query sample_db))
                = r :: g
                /\ p = (TS.dt r, sum (map TS.sales_amount (r :: g))))
           periods (points s).
Proof.
  split; [reflexivity|].
  split; [vm_compute; discriminate|].
  apply (timeline_aggregate_one_point_per_period
           None jan06 (feb11 + 1) (timeseries_query sample_db)).
  - reflexivity.
  - vm_compute; discriminate.
Defined.

(** C4, as stated, fails: the series come in the order of the country
    names, not in the order in which the countries first appear. *)
Lemma series_not_in_first_appearance_order :
  exists data,
    timeline_data (Some ["by_country"]) 0 feb11 usa_then_france = inr data
    /\ map Scatter.name data = [Some "France"; Some "USA"]
    /\ map Some (uniq (map TS.country (window_rows 0 feb11 usa_then_france)))
       = [Some "USA"; Some "France"]
    /\ map Scatter.name data
       <> map Some
              (uniq (map TS.country (window_rows 0 feb11 usa_then_france))).
Proof.
  eexists. split; [vm_compute; reflexivity|].
  split; [reflexivity|]. split; [reflexivity|].
  vm_compute. discriminate.
Qed.

(** C4, amended. With the box ticked and a non-empty query result,
    [timeline] draws one scatter per country of the rows inside the window,
    named after it; the series come in strictly ascending order of the
    country names, and the (date, total) pairs of a series are those of the
    rows of its country, in the order of the rows. *)
Theorem timeline_by_country_series
  (boxes : option (list string)) (start finish : Z) (dat : list TS.t) :
  split_by_country boxes = true ->
  dat <> [] ->
  exists data countries,
    timeline_data boxes start finish dat = inr data
    /\ map Scatter.name data = map Some countries
    /\ StronglySorted ord_lt countries
    /\ (forall c, In c countries <->
                  In c (map TS.country (window_rows start finish dat)))
    /\ Forall2
         (fun c s =>
            points s
            = map ts_point
                  (rows_of_key TS.country c (window_rows start finish dat)))
         countries data.
Proof.
  intros Hb Hd. rewrite (timeline_data_nonempty _ _ _ _ Hd), Hb.
  rewrite (timeline_by_country_ok (window_frame start finish dat) eq_refl).
  unfold groupby. rewrite map_map.
  rewrite <- (map_map snd TS.country), window_frame_rows.
  set (rows := window_rows start finish dat).
  exists (map (fun k => country_series
                 (k, rows_of_key (fun ir => TS.country (snd ir)) k
                       (body (window_frame start finish dat))))
              (sorted_keys (map TS.country rows))),
         (sorted_keys (map TS.country rows)).
  split; [reflexivity|]. split; [now rewrite map_map|].
  split; [apply sorted_keys_sorted|].
  split; [intros c; apply sorted_keys_In|].
  apply Forall2_map_r. intros c _.
  unfold points, country_series. simpl. rewrite combine_map.
  unfold rows, rows_of_key. rewrite <- window_frame_rows.
  rewrite <- (map_filter_comm snd (fun r => ord_eqb (TS.country r) c)).
  now rewrite map_map.
Qed.

Lemma timeline_by_country_series_witness :
  split_by_country (Some ["by_country"]) = true
  /\ usa_then_france <> []
  /\ exists data countries,
      timeline_data (Some ["by_country"]) 0 feb11 usa_then_france = inr data
      /\ map Scatter.name data = map Some countries
      /\ StronglySorted ord_lt countries
      /\ (forall c, In c countries <->
            In c (map TS.country (window_rows 0 feb11 usa_then_france)))
      /\ Forall2
           (fun c s =>
              points s
              = map ts_point
                    (rows_of_key TS.country c
                                 (window_rows 0 feb11 usa_then_france)))
           countries data.
Proof.
  split; [reflexivity|].
  split; [discriminate|].
  apply (timeline_by_country_series
           (Some ["by_country"]) 0 feb11 usa_then_france).
  - reflexivity.
  - discriminate.
Defined.

(** ** The result of [timeseries_query] *)

Lemma sql_group_by_keys {K} `{Ord K} {R} (key : R -> K) (rows : list R) :
  map fst (sql_group_by key rows) = uniq (map key rows).
Proof. unfold sql_group_by. rewrite map_map. simpl. apply map_id. Qed.

Lemma timeseries_query_keys (db : Database) :
  map ts_key (timeseries_query db)
  = uniq (map fact_key (sort_by (fun a b => Fact.dt a <=? Fact.dt b) db)).
Proof.
  unfold timeseries_query. rewrite map_map.
  rewrite <- (sql_group_by_keys fact_key).
  apply map_ext. intros [[[w yr] c] g]. reflexivity.
Qed.

(** GROUP BY week, year, country: no two rows of the result agree on all
    three. *)
Lemma timeseries_query_NoDup (db : Database) :
  NoDup (map ts_key (timeseries_query db)).
Proof. rewrite timeseries_query_keys. apply uniq_NoDup. Qed.

Lemma timeseries_query_country (db : Database) (r : TS.t) :
  In r (timeseries_query db) ->
  exists f, In f db /\ Fact.country f = TS.country r.
Proof.
  intros Hr.
  assert (In (ts_key r) (map ts_key (timeseries_query db))) as Hk
      by now apply in_map.
  rewrite timeseries_query_keys in Hk.
  apply uniq_In, in_map_iff in Hk. destruct Hk as [f [Hf If]].
  apply sort_by_In in If. exists f. split; [exact If|].
  unfold fact_key, ts_key in Hf. congruence.
Qed.

(** ** A single country *)

Section SingleKey.
Context {K : Type} `{Ord K}.

Lemma sorted_keys_constant (k : K) (l : list K) :
  l <> [] -> (forall k', In k' l -> k' = k) -> sorted_keys l = [k].
Proof.
  induction l as [|h t IH]; intros Hne Hall; [congruence|].
  simpl. rewrite (Hall h (or_introl eq_refl)).
  destruct t as [|h' t'].
  - reflexivity.
  - rewrite IH; [|discriminate|intros k' I; apply Hall; now right].
    simpl. now rewrite ord_ltb_irrefl, ord_eqb_refl.
Qed.

Context {R : Type}.
Variable key : R -> K.

Lemma rows_of_key_all (k : K) (rows : list R) :
  (forall r, In r rows -> key r = k) -> rows_of_key key k rows = rows.
Proof.
  induction rows as [|r t IH]; intros Hall; [reflexivity|].
  rewrite rows_of_key_cons, (Hall r (or_introl eq_refl)), ord_eqb_refl.
  f_equal. apply IH. intros r' I. apply Hall. now right.
Qed.

Lemma rows_of_key_none (k : K) (rows : list R) :
  ~ In k (map key rows) -> rows_of_key key k rows = [].
Proof.
  induction rows as [|r t IH]; intros N; [reflexivity|].
  rewrite rows_of_key_cons.
  destruct (ord_eqb_spec (key r) k) as [E|_].
  - exfalso. apply N. left. exact E.
  - apply IH. intros I. apply N. now right.
Qed.

(** Rows with pairwise distinct keys: every group is a single row. *)
Lemma rows_of_key_single (k : K) (rows : list R) :
  NoDup (map key rows) -> In k (map key rows) ->
  exists r, rows_of_key key k rows = [r].
Proof.
  induction rows as [|r t IH]; intros Hnd Hk; [contradiction|].
  simpl in Hnd. inversion Hnd as [|? ? Hr Ht]; subst.
  rewrite rows_of_key_cons.
  destruct (ord_eqb_spec (key r) k) as [E|N].
  - subst k. exists r. now rewrite (rows_of_key_none _ _ Hr).
  - destruct Hk as [E|Hk]; [congruence|]. now apply IH.
Qed.
End SingleKey.

Lemma NoDup_keys_filter {R K} (keep : R -> bool) (key : R -> K)
  (rows : list R) (Hnd : NoDup (map key rows)) :
  NoDup (map key (filter keep rows)).
Proof.
  induction rows as [|r t IH]; simpl in *; [constructor|].
  inversion Hnd as [|? ? Hr Ht]; subst.
  destruct (keep r); simpl; [|now apply IH].
  constructor; [|now apply IH].
  intros I. apply Hr. apply in_map_iff in I. destruct I as [b [E Ib]].
  apply filter_In in Ib. apply in_map_iff. exists b. tauto.
Qed.

Lemma NoDup_map_coarser {A B C} (f : A -> B) (g : A -> C) (l : list A) :
  (forall a b, In a l -> In b l -> g a = g b -> f a = f b) ->
  NoDup (map f l) -> NoDup (map g l).
Proof.
  induction l as [|a t IH]; simpl; intros Hinj Hnd; [constructor|].
  inversion Hnd as [|? ? Ha Ht]; subst. constructor.
  - intros I. apply Ha. apply in_map_iff in I. destruct I as [b [E Ib]].
    apply in_map_iff. exists b. split; [|exact Ib].
    apply Hinj; auto.
  - apply IH; [|exact Ht]. intros x y Hx Hy. apply Hinj; auto.
Qed.

(** When the rows have pairwise distinct periods, the aggregate series
    holds the rows' own (date, total) pairs, in the order of the periods. *)
Lemma period_points_perm (rows : list TS.t) :
  NoDup (map week_year rows) ->
  Permutation
    (map (fun k => period_point (rows_of_key week_year k rows))
         (sorted_keys (map week_year rows)))
    (map ts_point rows).
Proof.
  intros Hnd.
  assert (map (fun k => period_point (rows_of_key week_year k rows))
              (sorted_keys (map week_year rows))
          = map ts_point
                (flat_map (fun k => rows_of_key week_year k rows)
                          (sorted_keys (map week_year rows)))) as ->.
  { assert (forall k, In k (sorted_keys (map week_year rows)) ->
                      In k (map week_year rows)) as Hin
        by (intros k; apply sorted_keys_In).
    induction (sorted_keys (map week_year rows)) as [|k ks IH];
      [reflexivity|].
    cbn [map flat_map]. rewrite map_app.
    destruct (rows_of_key_single week_year k rows Hnd) as [r Hr];
      [apply Hin; now left|].
    rewrite Hr, IH; [|intros k' I; apply Hin; now right].
    unfold period_point, ts_point. simpl. now rewrite Z.add_0_r. }
  apply Permutation_map, groups_partition.
  - apply sorted_keys_NoDup.
  - intros r I. apply sorted_keys_In. now apply in_map.
Qed.

(** ** Running the callbacks *)

Lemma timeline_run (boxes : option (list string)) (start finish : Z)
  (db : Database) :
  timeline boxes [start; finish] db
  = (match timeline_data boxes start finish (timeseries_query db) with
     | inl e => inl e
     | inr data => inr (mkFigure data [("title", LStr "Sales Over Time")])
     end, db).
Proof.
  unfold timeline, bind, lift, analytics_query, ret. simpl.
  unfold fromtimestamp.
  destruct (timeline_data boxes start finish (timeseries_query db));
    reflexivity.
Qed.

(** C8, as stated, fails: when no row of a single-country dataset falls
    inside the window the split timeline has no series at all, while the
    unsplit one has its one (empty) series. *)
Lemma single_country_empty_window_no_series :
  (forall f, In f usa_db -> Fact.country f = "USA")
  /\ fst (timeline (Some ["by_country"]) [jan06; jan08] usa_db)
     = inr (mkFigure [] [("title", LStr "Sales Over Time")])
  /\ fst (timeline None [jan06; jan08] usa_db)
     = inr (mkFigure [Scatter.mk [] [] [] "markers" None]
                     [("title", LStr "Sales Over Time")]).
Proof.
  split; [|split; reflexivity].
  intros f [<-|[<-|[]]]; reflexivity.
Qed.

(** C8, amended. For a database whose sales all carry one country and a
    window that keeps at least one row of the time series, the split
    timeline is exactly one series, named after the country, holding the
    (date, total) pairs of the kept rows; the unsplit timeline is one
    series with the same pairs, up to their order. *)
Theorem single_country_split_matches_aggregate
  (db : Database) (c : string) (start finish : Z) :
  (forall f, In f db -> Fact.country f = c) ->
  window_rows start finish (timeseries_query db) <> [] ->
  exists s_split s_agg,
    fst (timeline (Some ["by_country"]) [start; finish] db)
    = inr (mkFigure [s_split] [("title", LStr "Sales Over Time")])
    /\ fst (timeline None [start; finish] db)
       = inr (mkFigure [s_agg] [("title", LStr "Sales Over Time")])
    /\ Scatter.name s_split = Some c
    /\ points s_split
       = map ts_point (window_rows start finish (timeseries_query db))
    /\ Permutation (points s_split) (points s_agg).
Proof.
  intros Hc Hne. rewrite !timeline_run. cbn [fst].
  set (dat := timeseries_query db) in *.
  set (rows := window_rows start finish dat) in *.
  assert (dat <> []) as Hd.
  { intros E. apply Hne. unfold rows. now rewrite E. }
  assert (forall r, In r rows -> TS.country r = c) as Hrc.
  { intros r Ir. apply filter_In in Ir. destruct Ir as [Ir _].
    destruct (timeseries_query_country db r Ir) as [f [If <-]].
    now apply Hc. }
  assert (NoDup (map week_year rows)) as Hnd.
  { apply (NoDup_map_coarser ts_key).
    - intros a b Ia Ib E. unfold ts_key, week_year in *.
      rewrite (Hrc a Ia), (Hrc b Ib). congruence.
    - apply NoDup_keys_filter, timeseries_query_NoDup. }
  rewrite !(timeline_data_nonempty _ _ _ _ Hd).
  change (split_by_country (Some ["by_country"])) with true.
  change (split_by_country None) with false. cbv iota.
  rewrite (timeline_by_country_ok (window_frame start finish dat) eq_refl).
  destruct (timeline_aggregate_ok (window_frame start finish dat) eq_refl)
    as [s [Hs [Hp _]]].
  rewrite Hs. rewrite window_frame_rows in Hp. fold rows in Hp.
  unfold groupby.
  rewrite <- (map_map snd TS.country), window_frame_rows. fold rows.
  rewrite (sorted_keys_constant c).
  - cbn [map]. eexists. exists s. split; [reflexivity|].
    split; [reflexivity|]. split; [reflexivity|].
    assert (points
              (country_series
                 (c, rows_of_key (fun ir : nat * TS.t => TS.country (snd ir))
                       c (body (window_frame start finish dat))))
            = map ts_point rows) as Hps.
    { rewrite rows_of_key_all.
      - unfold points, country_series. simpl. rewrite combine_map.
        unfold rows. rewrite <- window_frame_rows. now rewrite map_map.
      - intros ir I. apply Hrc. unfold rows.
        rewrite <- window_frame_rows. now apply in_map. }
    split; [exact Hps|].
    rewrite Hps, Hp. symmetry. now apply period_points_perm.
  - intros E. apply Hne. now apply map_eq_nil in E.
  - intros k I. apply in_map_iff in I. destruct I as [r [<- Ir]].
    now apply Hrc.
Qed.

Lemma single_country_split_matches_aggregate_witness :
  (forall f, In f usa_db -> Fact.country f = "USA")
  /\ window_rows 0 feb11 (timeseries_query usa_db) <> []
  /\ exists s_split s_agg,
      fst (timeline (Some ["by_country"]) [0; feb11] usa_db)
      = inr (mkFigure [s_split] [("title", LStr "Sales Over Time")])
      /\ fst (timeline None [0; feb11] usa_db)
         = inr (mkFigure [s_agg] [("title", LStr "Sales Over Time")])
      /\ Scatter.name s_split = Some "USA"
      /\ points s_split
         = map ts_point (window_rows 0 feb11 (timeseries_query usa_db))
      /\ Permutation (points s_split) (points s_agg).
Proof.
  assert (forall f, In f usa_db -> Fact.country f = "USA") as Hc
      by (intros f [<-|[<-|[]]]; reflexivity).
  split; [exact Hc|].
  split; [vm_compute; discriminate|].
  apply (single_country_split_matches_aggregate usa_db "USA" 0 feb11 Hc).
  vm_compute; discriminate.
Defined.

(** The two series need not list the pairs in the same order: the unsplit
    one is ordered by (week, year), so week 1 of 2004 comes before week 2 of
    2003, while the split one keeps the order of the rows of the query. *)
Example single_country_orders_differ :
  exists s_split s_agg,
    fst (timeline (Some ["by_country"]) [0; jan02_2004 + 1] usa_two_years)
    = inr (mkFigure [s_split] [("title", LStr "Sales Over Time")])
    /\ fst (timeline None [0; jan02_2004 + 1] usa_two_years)
       = inr (mkFigure [s_agg] [("title", LStr "Sales Over Time")])
    /\ points s_split = [(jan06, 4080); (jan02_2004, 1729)]
    /\ points s_agg = [(jan02_2004, 1729); (jan06, 4080)].
Proof. do 2 eexists. repeat split; reflexivity. Qed.

(** ** The top-products statements *)

(** C6. For every window and every limit [n], [top_products_query] returns
    at most [n] rows, in descending order of [sales_amount]; so the call
    with [n = 5] that [products] makes when the box is unticked returns at
    most 5 rows in descending order. *)
Theorem top_products_at_most_n_descending
  (db : Database) (n : nat) (start finish : Z) :
  (List.length (top_products_query db n start finish) <= n)%nat
  /\ StronglySorted Z.ge
       (map TP.sales_amount (top_products_query db n start finish))
  /\ (List.length (top_products_query db 5 start finish) <= 5)%nat
  /\ StronglySorted Z.ge
       (map TP.sales_amount (top_products_query db 5 start finish)).
Proof.
  assert (forall m,
             (List.length (top_products_query db m start finish) <= m)%nat
             /\ StronglySorted Z.ge
                  (map TP.sales_amount
                       (top_products_query db m start finish))) as Hm.
  { intros m. unfold top_products_query. split.
    - apply firstn_le_length.
    - apply sorted_map_desc, firstn_sorted, sort_desc_sorted. }
  destruct (Hm n) as [H1 H2], (Hm 5%nat) as [H3 H4]. tauto.
Qed.

Lemma map_fst_combine {A B} (l1 : list A) (l2 : list B) :
  List.length l1 = List.length l2 -> map fst (combine l1 l2) = l1.
Proof.
  revert l2. induction l1 as [|a t IH]; intros [|b l2]; simpl;
    try discriminate; try reflexivity.
  intros E. f_equal. apply IH. congruence.
Qed.

Lemma map_snd_combine {A B} (l1 : list A) (l2 : list B) :
  List.length l1 = List.length l2 -> map snd (combine l1 l2) = l2.
Proof.
  revert l2. induction l1 as [|a t IH]; intros [|b l2]; simpl;
    try discriminate; try reflexivity.
  intros E. f_equal. apply IH. congruence.
Qed.

Lemma number_partition_ranks (part : list PC.t) :
  map Ranked.row_number (number_partition part)
  = seq 1 (List.length part).
Proof.
  unfold number_partition. rewrite map_map. simpl.
  apply map_fst_combine. now rewrite length_seq, sort_by_length.
Qed.

Lemma number_partition_sales (part : list PC.t) :
  map Ranked.sales_amount (number_partition part)
  = map PC.sales_amount (sort_by (sales_desc PC.sales_amount) part).
Proof.
  unfold number_partition. rewrite map_map. simpl.
  rewrite <- (map_map snd PC.sales_amount). f_equal.
  apply map_snd_combine. now rewrite length_seq, sort_by_length.
Qed.

Lemma number_partition_country (part : list PC.t) (r : Ranked.t) :
  In r (number_partition part) ->
  exists p, In p part /\ PC.country p = Ranked.country r.
Proof.
  unfold number_partition. intros I.
  apply in_map_iff in I. destruct I as [[i p] [<- I]].
  apply in_combine_r, sort_by_In in I. now exists p.
Qed.

Lemma filter_le_seq (n a k : nat) :
  filter (fun i => (i <=? n)%nat) (seq a k) = seq a (Nat.min (n + 1 - a) k).
Proof.
  revert a. induction k as [|k IH]; intros a; simpl.
  - now rewrite Nat.min_0_r.
  - rewrite IH. destruct (Nat.leb_spec a n) as [L|G].
    + replace (n + 1 - a)%nat with (S (n + 1 - S a)) by lia. reflexivity.
    + replace (n + 1 - a)%nat with 0%nat by lia.
      replace (n + 1 - S a)%nat with 0%nat by lia. reflexivity.
Qed.

Lemma filter_comm {A} (p q : A -> bool) (l : list A) :
  filter p (filter q l) = filter q (filter p l).
Proof.
  induction l as [|a t IH]; simpl; [reflexivity|].
  destruct (p a) eqn:P, (q a) eqn:Q; simpl; rewrite ?P, ?Q, IH; reflexivity.
Qed.

Lemma sorted_map_filter {A} (f : A -> Z) (p : A -> bool) (l : list A) :
  StronglySorted Z.ge (map f l) -> StronglySorted Z.ge (map f (filter p l)).
Proof.
  induction l as [|a t IH]; simpl; intros Hs; [constructor|].
  inversion Hs as [|? ? Ht Ha]; subst.
  destruct (p a); [|now apply IH].
  simpl. constructor; [now apply IH|].
  rewrite Forall_forall in *. intros z Hz. apply Ha.
  apply in_map_iff in Hz. destruct Hz as [b [<- Hb]].
  apply filter_In in Hb. apply in_map. tauto.
Qed.

Lemma filter_none {A} (p : A -> bool) (l : list A) :
  (forall a, In a l -> p a = false) -> filter p l = [].
Proof.
  induction l as [|a t IH]; intros Hp; simpl; [reflexivity|].
  rewrite (Hp a (or_introl eq_refl)). apply IH.
  intros b Hb. apply Hp. now right.
Qed.

Lemma filter_all {A} (p : A -> bool) (l : list A) :
  (forall a, In a l -> p a = true) -> filter p l = l.
Proof.
  induction l as [|a t IH]; intros Hp; simpl; [reflexivity|].
  rewrite (Hp a (or_introl eq_refl)). f_equal. apply IH.
  intros b Hb. apply Hp. now right.
Qed.

(** The rows of one country in the table [t] are one numbered partition. *)
Lemma ranked_products_partition (db : Database) (start finish : Z)
  (c : string) :
  exists part,
    filter (fun r => String.eqb (Ranked.country r) c)
           (ranked_products db start finish)
    = number_partition part.
Proof.
  unfold ranked_products, sql_group_by. rewrite flat_map_concat_map, map_map.
  rewrite <- flat_map_concat_map. simpl.
  set (ppc := products_per_country db start finish).
  assert (forall k,
             (forall r, In r (number_partition (rows_of_key PC.country k ppc))
                        -> Ranked.country r = k)) as Hk.
  { intros k r I. apply number_partition_country in I.
    destruct I as [p [Ip <-]]. now apply rows_of_key_In in Ip. }
  pose proof (uniq_NoDup (map PC.country ppc)) as Hnd.
  induction (uniq (map PC.country ppc)) as [|k ks IH].
  - exists []. reflexivity.
  - inversion Hnd as [|? ? Hk' Hks]; subst.
    simpl. rewrite filter_app.
    destruct (String.eqb_spec k c) as [->|N].
    + exists (rows_of_key PC.country c ppc).
      rewrite filter_all.
      * rewrite (filter_none (fun r => String.eqb (Ranked.country r) c)
                             (flat_map _ ks)); [apply app_nil_r|].
        intros r I. apply in_flat_map in I. destruct I as [k [Ik Ir]].
        apply String.eqb_neq. rewrite (Hk k r Ir). congruence.
      * intros r I. apply String.eqb_eq. now apply Hk.
    + destruct (IH Hks) as [part Hp]. exists part.
      rewrite filter_none; [exact Hp|].
      intros r I. apply String.eqb_neq. rewrite (Hk k r I). exact N.
Qed.

(** C2. In the result of [top_products_by_country_query], restricted to a
    country, the row numbers are 1, 2, ..., k and [sales_amount] does not
    increase along them; the rows returned are those of the table [t] whose
    row number is at most [n], without the row number. *)
Theorem ranks_contiguous_and_descending
  (db : Database) (n : nat) (start finish : Z) (c : string) :
  let rows := filter (fun r => String.eqb (Ranked.country r) c)
                     (top_ranked db n start finish) in
  map Ranked.row_number rows = seq 1 (List.length rows)
  /\ StronglySorted Z.ge (map Ranked.sales_amount rows)
  /\ (List.length rows <= n)%nat
  /\ filter (fun r => String.eqb (TPC.country r) c)
            (top_products_by_country_query db n start finish)
     = map select_columns rows
  /\ (forall r, In r (top_ranked db n start finish) <->
                In r (ranked_products db start finish)
                /\ (Ranked.row_number r <= n)%nat).
Proof.
  intros rows.
  assert (forall r, In r (top_ranked db n start finish) <->
                    In r (ranked_products db start finish)
                    /\ (Ranked.row_number r <= n)%nat) as Hin.
  { intros r. unfold top_ranked. now rewrite filter_In, Nat.leb_le. }
  assert (filter (fun r => String.eqb (TPC.country r) c)
                 (top_products_by_country_query db n start finish)
          = map select_columns rows) as Hsel.
  { unfold top_products_by_country_query, rows.
    now rewrite <- (map_filter_comm select_columns
                      (fun r => String.eqb (TPC.country r) c)). }
  destruct (ranked_products_partition db start finish c) as [part Hp].
  assert (rows = filter (fun r => (Ranked.row_number r <=? n)%nat)
                        (number_partition part)) as Hrows.
  { unfold rows, top_ranked. now rewrite filter_comm, Hp. }
  assert (map Ranked.row_number rows
          = seq 1 (Nat.min n (List.length part))) as Hrn.
  { rewrite Hrows.
    rewrite (map_filter_comm Ranked.row_number (fun i => (i <=? n)%nat)).
    rewrite number_partition_ranks, filter_le_seq.
    now replace (n + 1 - 1)%nat with n by lia. }
  assert (List.length rows = Nat.min n (List.length part)) as Hlen.
  { rewrite <- (length_map Ranked.row_number), Hrn. apply length_seq. }
  split; [now rewrite Hlen|].
  split; [|split; [lia|split; assumption]].
  rewrite Hrows. apply sorted_map_filter.
  rewrite number_partition_sales.
  apply sorted_map_desc, sort_desc_sorted.
Qed.

(** ** Windows without rows *)

Lemma products_run (boxes : option (list string)) (start finish : Z)
  (db : Database) :
  products boxes [start; finish] db
  = (match (if split_by_country boxes
            then products_by_country
                   (top_products_by_country_query db 3 start finish)
            else products_aggregate (top_products_query db 5 start finish))
     with
     | inl e => inl e
     | inr data =>
         inr (mkFigure data [("title", LStr "Most Profitable Products");
                             ("yaxis", LAxis true);
                             ("barmode", LStr "stack")])
     end, db).
Proof.
  unfold products, bind, lift, analytics_query, ret. simpl.
  unfold fromtimestamp.
  destruct (split_by_country boxes).
  - destruct (products_by_country _); reflexivity.
  - destruct (products_aggregate _); reflexivity.
Qed.

Lemma degenerate_window_no_fact (start finish : Z) (db : Database) :
  finish <= start -> filter (in_window start finish) db = [].
Proof.
  intros Hw. apply filter_none. intros f _. unfold in_window.
  destruct (Z.ltb_spec start (Fact.dt f)), (Z.ltb_spec (Fact.dt f) finish);
    try reflexivity; lia.
Qed.

Lemma top_products_query_no_fact (db : Database) (n : nat)
  (start finish : Z) :
  filter (in_window start finish) db = [] ->
  top_products_query db n start finish = [].
Proof.
  intros E. unfold top_products_query. rewrite E. simpl. apply firstn_nil.
Qed.

Lemma top_products_by_country_query_no_fact (db : Database) (n : nat)
  (start finish : Z) :
  filter (in_window start finish) db = [] ->
  top_products_by_country_query db n start finish = [].
Proof.
  intros E.
  unfold top_products_by_country_query, top_ranked, ranked_products,
    products_per_country.
  rewrite E. reflexivity.
Qed.

(** When no sale falls inside the window both statements of [products]
    return no row, [pd.DataFrame] builds a frame without columns, and the
    callback raises. *)
Lemma products_raises_without_rows (boxes : option (list string))
  (start finish : Z) (db : Database) :
  filter (in_window start finish) db = [] ->
  fst (products boxes [start; finish] db)
  = inl (if split_by_country boxes then KeyError "product_name"
         else AttributeError "sales_amount").
Proof.
  intros E. rewrite products_run.
  rewrite (top_products_query_no_fact db 5 start finish E).
  rewrite (top_products_by_country_query_no_fact db 3 start finish E).
  destruct (split_by_country boxes); reflexivity.
Qed.

Lemma products_raises_on_degenerate_window (boxes : option (list string))
  (start finish : Z) (db : Database) :
  finish <= start ->
  fst (products boxes [start; finish] db)
  = inl (if split_by_country boxes then KeyError "product_name"
         else AttributeError "sales_amount").
Proof.
  intros Hw. apply products_raises_without_rows.
  now apply degenerate_window_no_fact.
Qed.

(** [timeline], on the same windows, returns a figure without data
    points. *)
Lemma timeline_empty_on_degenerate_window (boxes : option (list string))
  (start finish : Z) (db : Database) :
  finish <= start ->
  timeseries_query db <> [] ->
  exists fig,
    fst (timeline boxes [start; finish] db) = inr fig
    /\ scatter_points fig = 0%nat.
Proof.
  intros Hw Hd. rewrite timeline_run. cbn [fst].
  rewrite (timeline_data_nonempty _ _ _ _ Hd).
  assert (body (window_frame start finish (timeseries_query db)) = [])
    as Hb.
  { unfold window_frame. cbn [body]. apply filter_none.
    intros ir _. unfold in_range.
    destruct (Z.ltb_spec start (TS.dt (snd ir))),
             (Z.ltb_spec (TS.dt (snd ir)) finish); try reflexivity; lia. }
  destruct (split_by_country boxes).
  - rewrite (timeline_by_country_ok
               (window_frame start finish (timeseries_query db)) eq_refl), Hb.
    eexists. split; reflexivity.
  - destruct (timeline_aggregate_ok
                (window_frame start finish (timeseries_query db)) eq_refl)
      as [s [Hs [Hp _]]].
    rewrite Hs. eexists. split; [reflexivity|].
    unfold scatter_points. cbn [data flat_map].
    rewrite Hp, Hb. reflexivity.
Qed.

(** C3. On a window with [start = finish] or [start > finish] the
    [products] callback raises in both branches, where the claim has it
    return a chart without data points; [timeline] does return one. *)
Theorem products_raises_on_empty_window :
  fst (products None [jan08; jan08] sample_db)
  = inl (AttributeError "sales_amount")
  /\ fst (products (Some ["by_country"]) [jan08; jan08] sample_db)
     = inl (KeyError "product_name")
  /\ fst (products None [feb11; jan06] sample_db)
     = inl (AttributeError "sales_amount")
  /\ fst (products (Some ["by_country"]) [feb11; jan06] sample_db)
     = inl (KeyError "product_name")
  /\ fst (timeline None [jan08; jan08] sample_db)
     = inr (mkFigure [Scatter.mk [] [] [] "markers" None]
                     [("title", LStr "Sales Over Time")])
  /\ fst (timeline (Some ["by_country"]) [jan08; jan08] sample_db)
     = inr (mkFigure [] [("title", LStr "Sales Over Time")]).
Proof. repeat split; reflexivity. Qed.

(** ** The series of the products chart *)

(** For a result with at least one row the unticked branch of [products]
    builds exactly one bar series, over all rows of the result. *)
Lemma products_aggregate_one_series (res : list TP.t) :
  res <> [] ->
  exists b,
    products_aggregate res = inr [b]
    /\ Bar.x b = map TP.sales_amount res
    /\ Bar.y b = map TP.product_name res
    /\ Bar.name b = None.
Proof.
  intros Hne. destruct res as [|r t]; [congruence|].
  unfold products_aggregate, getattr, has_column. cbn [DataFrame_of columns].
  simpl existsb. cbn [result_bind]. eexists. split; [reflexivity|].
  cbn [Bar.x Bar.y Bar.name].
  rewrite <- (map_map snd TP.sales_amount), <- (map_map snd TP.product_name).
  unfold DataFrame_of. cbn [body].
  now rewrite map_snd_combine_seq.
Qed.

(** For a result with at least one row the ticked branch builds exactly one
    bar series per distinct product name of the result, named after it. *)
Lemma products_by_country_one_series_per_product (res : list TPC.t) :
  res <> [] ->
  exists data names,
    products_by_country res = inr data
    /\ map Bar.name data = map Some names
    /\ NoDup names
    /\ (forall p, In p names <-> In p (map TPC.product_name res))
    /\ Forall2
         (fun p b =>
            combine (Bar.x b) (Bar.y b)
            = map (fun r => (TPC.sales_amount r, TPC.country r))
                  (rows_of_key TPC.product_name p res))
         names data.
Proof.
  intros Hne. unfold products_by_country.
  set (df := DataFrame_of ["country"; "product_name"; "sales_amount"] res).
  assert (columns df = ["country"; "product_name"; "sales_amount"]) as Hcols
      by (destruct res; [congruence|reflexivity]).
  assert (map snd (body df) = res) as Hbody
      by (unfold df, DataFrame_of; cbn [body]; apply map_snd_combine_seq).
  unfold groupby_frame, has_column. rewrite Hcols. simpl find.
  cbn [result_bind]. unfold groupby. rewrite map_map. cbn [fst snd].
  rewrite <- (map_map snd TPC.product_name), Hbody.
  eexists. exists (sorted_keys (map TPC.product_name res)).
  split.
  { apply result_map_map_ok. intros p _. reflexivity. }
  split; [now rewrite map_map|].
  split; [apply sorted_keys_NoDup|].
  split; [intros p; apply sorted_keys_In|].
  apply Forall2_map_r. intros p _. cbn [Bar.x Bar.y body].
  rewrite combine_map. unfold rows_of_key. rewrite <- Hbody.
  rewrite <- (map_filter_comm snd (fun r => ord_eqb (TPC.product_name r) p)).
  now rewrite map_map.
Qed.

(** C5. A window that holds no sale (here the open interval between two
    consecutive sales) makes both statements return no row; [products]
    then raises and returns no chart, with one bar series or otherwise. *)
Theorem products_no_chart_for_empty_result :
  jan08 < jan14
  /\ top_products_query sample_db 5 jan08 jan14 = []
  /\ fst (products None [jan08; jan14] sample_db)
     = inl (AttributeError "sales_amount")
  /\ top_products_by_country_query sample_db 3 jan08 jan14 = []
  /\ fst (products (Some ["by_country"]) [jan08; jan14] sample_db)
     = inl (KeyError "product_name").
Proof. repeat split; reflexivity. Qed.

(* ================================================================= *)
(** * Further properties of the statements *)

Lemma sum_app (l1 l2 : list Z) : sum (l1 ++ l2) = sum l1 + sum l2.
Proof. induction l1 as [|z t IH]; simpl; [reflexivity|]. rewrite IH. lia. Qed.

Lemma sum_perm (l1 l2 : list Z) : Permutation l1 l2 -> sum l1 = sum l2.
Proof. induction 1; simpl; lia. Qed.

Lemma sum_flat_map {A} (f : A -> list Z) (l : list A) :
  sum (flat_map f l) = sum (map (fun a => sum (f a)) l).
Proof.
  induction l as [|a t IH]; simpl; [reflexivity|].
  now rewrite sum_app, IH.
Qed.

Lemma sum_map_flat_map {A B} (f : B -> Z) (g : A -> list B) (l : list A) :
  sum (map f (flat_map g l)) = sum (map (fun a => sum (map f (g a))) l).
Proof.
  induction l as [|a t IH]; simpl; [reflexivity|].
  now rewrite map_app, sum_app, IH.
Qed.

Lemma filter_perm {A} (keep : A -> bool) (l1 l2 : list A) :
  Permutation l1 l2 -> Permutation (filter keep l1) (filter keep l2).
Proof.
  induction 1 as [|a l1 l2 Hp IH|a b l|l1 l2 l3 H1 IH1 H2 IH2]; simpl.
  - constructor.
  - destruct (keep a); [now constructor|exact IH].
  - destruct (keep a), (keep b); try reflexivity. apply perm_swap.
  - now transitivity (filter keep l2).
Qed.

Section GroupByFacts.
Context {K : Type} `{Ord K} {R : Type}.
Variable key : R -> K.

(** The groups of a GROUP BY are a partition of the rows. *)
Lemma sql_group_by_partition (rows : list R) :
  Permutation (flat_map snd (sql_group_by key rows)) rows.
Proof.
  unfold sql_group_by. rewrite flat_map_concat_map, map_map.
  rewrite <- flat_map_concat_map. cbn [snd].
  apply groups_partition.
  - apply uniq_NoDup.
  - intros r I. apply uniq_In. now apply in_map.
Qed.

Lemma sql_group_by_In (k : K) (g : list R) (rows : list R) :
  In (k, g) (sql_group_by key rows) ->
  In k (map key rows) /\ g = rows_of_key key k rows.
Proof.
  unfold sql_group_by. intros I. apply in_map_iff in I.
  destruct I as [k' [E I]]. inversion E; subst.
  split; [now apply uniq_In|reflexivity].
Qed.
End GroupByFacts.

Lemma min_list_le (l : list Z) (z : Z) : In z l -> min_list l <= z.
Proof.
  destruct l as [|d t]; [contradiction|]. simpl.
  assert (forall t a, fold_left Z.min t a <= a) as Hle.
  { clear. induction t as [|x t IH]; intros a; simpl; [lia|].
    specialize (IH (Z.min a x)). lia. }
  assert (forall t a, In z t -> fold_left Z.min t a <= z) as Hin.
  { clear - Hle. induction t as [|x t IH]; intros a; simpl; [tauto|].
    intros [->|I]; [|now apply IH].
    specialize (Hle t (Z.min a z)). lia. }
  intros [->|I]; [apply Hle|now apply Hin].
Qed.

Lemma min_list_In (l : list Z) : l <> [] -> In (min_list l) l.
Proof.
  destruct l as [|d t]; [congruence|]. intros _. simpl.
  revert d. induction t as [|x t IH]; intros d; simpl; [now left|].
  destruct (Z.min_spec d x) as [[_ Hm]|[_ Hm]]; rewrite Hm.
  - destruct (IH d) as [E|I]; [now left|right; right; exact I].
  - destruct (IH x) as [E|I]; [right; now left|right; right; exact I].
Qed.

Lemma max_list_ge (l : list Z) (z : Z) : In z l -> z <= max_list l.
Proof.
  destruct l as [|d t]; [contradiction|]. simpl.
  assert (forall t a, a <= fold_left Z.max t a) as Hle.
  { clear. induction t as [|x t IH]; intros a; simpl; [lia|].
    specialize (IH (Z.max a x)). lia. }
  assert (forall t a, In z t -> z <= fold_left Z.max t a) as Hin.
  { clear - Hle. induction t as [|x t IH]; intros a; simpl; [tauto|].
    intros [->|I]; [|now apply IH].
    specialize (Hle t (Z.max a z)). lia. }
  intros [->|I]; [apply Hle|now apply Hin].
Qed.

Lemma max_list_In (l : list Z) : l <> [] -> In (max_list l) l.
Proof.
  destruct l as [|d t]; [congruence|]. intros _. simpl.
  revert d. induction t as [|x t IH]; intros d; simpl; [now left|].
  destruct (Z.max_spec d x) as [[_ Hm]|[_ Hm]]; rewrite Hm.
  - destruct (IH x) as [E|I]; [right; now left|right; right; exact I].
  - destruct (IH d) as [E|I]; [now left|right; right; exact I].
Qed.

Lemma timeseries_query_rows (db : Database) (r : TS.t) :
  In r (timeseries_query db) ->
  exists g,
    Permutation g (rows_of_key fact_key (ts_key r) db)
    /\ g <> []
    /\ TS.sales_amount r = sum (map Fact.sales_amount g)
    /\ TS.dt r = min_list (map Fact.dt g).
Proof.
  unfold timeseries_query. intros I. apply in_map_iff in I.
  destruct I as [[[[w yr] c] g] [<- I]].
  apply (sql_group_by_In fact_key) in I. destruct I as [Ik ->].
  exists (rows_of_key fact_key (w, yr, c)
            (sort_by (fun a b => Fact.dt a <=? Fact.dt b) db)).
  split; [apply filter_perm, sort_by_perm|].
  split; [now apply rows_of_key_nonempty|]. split; reflexivity.
Qed.

(** X1. [timeseries_query] loses and invents no sale: the amounts of its
    rows add up to the amounts of all rows of the database. *)
Theorem timeseries_query_total (db : Database) :
  sum (map TS.sales_amount (timeseries_query db))
  = sum (map Fact.sales_amount db).
Proof.
  unfold timeseries_query. rewrite map_map.
  set (t := sort_by _ db).
  transitivity (sum (map Fact.sales_amount t)).
  - rewrite <- (sum_perm _ _ (Permutation_map Fact.sales_amount
                                (sql_group_by_partition fact_key t))).
    rewrite sum_map_flat_map.
    f_equal. apply map_ext. intros [[[w yr] c] g]. reflexivity.
  - apply sum_perm, Permutation_map, sort_by_perm.
Qed.

(** X2. Every row of [timeseries_query] stands for the sales of its
    (week, year, country): its amount is their sum, and its date is the
    earliest date among them, which one of them carries. *)
Theorem timeseries_query_row_content (db : Database) (r : TS.t) :
  In r (timeseries_query db) ->
  TS.sales_amount r
  = sum (map Fact.sales_amount (rows_of_key fact_key (ts_key r) db))
  /\ (forall f, In f db -> fact_key f = ts_key r -> TS.dt r <= Fact.dt f)
  /\ (exists f, In f db /\ fact_key f = ts_key r /\ Fact.dt f = TS.dt r).
Proof.
  intros I. destruct (timeseries_query_rows db r I) as [g [Hp [Hne [Hs Hd]]]].
  split; [|split].
  - rewrite Hs. apply sum_perm, Permutation_map, Hp.
  - intros f If Hk. rewrite Hd. apply min_list_le.
    apply in_map. apply (Permutation_in _ (Permutation_sym Hp)).
    now apply rows_of_key_In.
  - assert (In (TS.dt r) (map Fact.dt g)) as Hin.
    { rewrite Hd. apply min_list_In. intros E.
      apply map_eq_nil in E. contradiction. }
    apply in_map_iff in Hin. destruct Hin as [f [Hf If]].
    apply (Permutation_in _ Hp) in If. apply rows_of_key_In in If.
    exists f. tauto.
Qed.

Lemma timeseries_query_row_content_witness :
  In (TS.mk 5809 jan06 2003 2 "USA") (timeseries_query sample_db)
  /\ 5809 = sum (map Fact.sales_amount
                     (rows_of_key fact_key (2, 2003, "USA") sample_db))
  /\ (forall f, In f sample_db -> fact_key f = (2, 2003, "USA") ->
                jan06 <= Fact.dt f)
  /\ (exists f, In f sample_db /\ fact_key f = (2, 2003, "USA")
                /\ Fact.dt f = jan06).
Proof.
  assert (In (TS.mk 5809 jan06 2003 2 "USA") (timeseries_query sample_db))
    as I by (now left).
  split; [exact I|].
  exact (timeseries_query_row_content sample_db _ I).
Defined.

(** X3. [timeseries_query] returns exactly one row for every
    (week, year, country) that has a sale, and none for any other. *)
Theorem timeseries_query_one_row_per_key (db : Database) :
  NoDup (map ts_key (timeseries_query db))
  /\ (forall k, In k (map ts_key (timeseries_query db))
                <-> In k (map fact_key db)).
Proof.
  split; [apply timeseries_query_NoDup|].
  intros k. rewrite timeseries_query_keys, uniq_In, !in_map_iff.
  split; intros [f [E I]]; exists f; split; try exact E.
  - now apply sort_by_In in I.
  - now apply sort_by_In.
Qed.

Lemma sorted_app_desc {R} (sales : R -> Z) (l1 l2 : list R) :
  StronglySorted (desc sales) (l1 ++ l2) ->
  forall a b, In a l1 -> In b l2 -> sales b <= sales a.
Proof.
  induction l1 as [|h t IH]; simpl; intros Hs a b Ia Ib; [contradiction|].
  inversion Hs as [|? ? Ht Hh]; subst. destruct Ia as [->|Ia].
  - rewrite Forall_forall in Hh. apply (Hh b). apply in_or_app. now right.
  - now apply IH.
Qed.

(** X4. [top_products_query] returns the best sellers of the window: the
    products it leaves out are the rest of the per-product totals, and
    none of them sold more than any product it returns. *)
Theorem top_products_query_best (db : Database) (n : nat) (start finish : Z) :
  exists rest,
    Permutation (product_totals db start finish)
                (top_products_query db n start finish ++ rest)
    /\ (forall a b, In a (top_products_query db n start finish) ->
                    In b rest ->
                    TP.sales_amount b <= TP.sales_amount a).
Proof.
  change (top_products_query db n start finish)
    with (firstn n (sort_by (sales_desc TP.sales_amount)
                            (product_totals db start finish))).
  set (sorted := sort_by _ (product_totals db start finish)).
  exists (skipn n sorted). split.
  - rewrite firstn_skipn. symmetry. apply sort_by_perm.
  - apply sorted_app_desc. rewrite firstn_skipn. apply sort_desc_sorted.
Qed.

Lemma product_totals_sum (db : Database) (start finish : Z) :
  sum (map TP.sales_amount (product_totals db start finish))
  = sum (map Fact.sales_amount (filter (in_window start finish) db)).
Proof.
  unfold product_totals. rewrite map_map.
  set (rows := filter _ db).
  rewrite <- (sum_perm _ _
                (Permutation_map Fact.sales_amount
                   (sql_group_by_partition
                      (fun r => (Fact.product_code r, Fact.product_name r))
                      rows))).
  rewrite sum_map_flat_map.
  f_equal. apply map_ext. intros [[pcode pname] g]. reflexivity.
Qed.

(** X5. When the window holds at most [n] products, [top_products_query]
    cuts nothing: the amounts it returns add up to all sales made strictly
    inside the window. *)
Theorem top_products_query_total
  (db : Database) (n : nat) (start finish : Z) :
  (List.length (product_totals db start finish) <= n)%nat ->
  sum (map TP.sales_amount (top_products_query db n start finish))
  = sum (map Fact.sales_amount (filter (in_window start finish) db)).
Proof.
  intros Hn. rewrite <- product_totals_sum.
  change (top_products_query db n start finish)
    with (firstn n (sort_by (sales_desc TP.sales_amount)
                            (product_totals db start finish))).
  rewrite firstn_all2 by now rewrite sort_by_length.
  apply sum_perm, Permutation_map, sort_by_perm.
Qed.

Lemma top_products_query_total_witness :
  (List.length (product_totals sample_db jan06 (feb11 + 1)) <= 5)%nat
  /\ sum (map TP.sales_amount
              (top_products_query sample_db 5 jan06 (feb11 + 1)))
     = sum (map Fact.sales_amount
                (filter (in_window jan06 (feb11 + 1)) sample_db)).
Proof.
  assert (List.length (product_totals sample_db jan06 (feb11 + 1)) <= 5)%nat
    as Hn by (vm_compute; lia).
  split; [exact Hn|].
  exact (top_products_query_total sample_db 5 jan06 (feb11 + 1) Hn).
Defined.

Lemma products_per_country_In (db : Database) (start finish : Z) (p : PC.t) :
  In p (products_per_country db start finish) ->
  exists f, In f db /\ in_window start finish f = true
            /\ Fact.country f = PC.country p.
Proof.
  unfold products_per_country. intros I. apply in_map_iff in I.
  destruct I as [[[[pcode pname] c] g] [<- I]].
  apply (sql_group_by_In
           (fun r => (Fact.product_code r, Fact.product_name r,
                      Fact.country r))) in I.
  destruct I as [Ik _]. apply in_map_iff in Ik. destruct Ik as [f [E If]].
  apply filter_In in If. exists f. simpl. inversion E. tauto.
Qed.

Lemma products_per_country_covers (db : Database) (start finish : Z)
  (f : Fact.t) :
  In f db -> in_window start finish f = true ->
  exists p, In p (products_per_country db start finish)
            /\ PC.country p = Fact.country f.
Proof.
  intros If Hw. unfold products_per_country.
  set (key := fun r => (Fact.product_code r, Fact.product_name r,
                        Fact.country r)).
  set (rows := filter (in_window start finish) db).
  assert (In (key f) (uniq (map key rows))) as Ik.
  { apply uniq_In, in_map. now apply filter_In. }
  exists (PC.mk (Fact.country f) (Fact.product_code f) (Fact.product_name f)
                (sum (map Fact.sales_amount (rows_of_key key (key f) rows)))).
  split; [|reflexivity].
  apply in_map_iff. exists (key f, rows_of_key key (key f) rows).
  split; [reflexivity|].
  unfold sql_group_by. apply in_map_iff. now exists (key f).
Qed.

Lemma number_partition_first (part : list PC.t) :
  part <> [] ->
  exists r, In r (number_partition part) /\ Ranked.row_number r = 1%nat.
Proof.
  intros Hne. unfold number_partition.
  pose proof (sort_by_length (sales_desc PC.sales_amount) part) as Hl.
  destruct (sort_by (sales_desc PC.sales_amount) part) as [|x t] eqn:E.
  - destruct part; [congruence|discriminate].
  - rewrite <- Hl. simpl. eexists. split; [left; reflexivity|reflexivity].
Qed.

Lemma in_window_spec (start finish : Z) (f : Fact.t) :
  in_window start finish f = true <-> start < Fact.dt f < finish.
Proof. unfold in_window. rewrite andb_true_iff, !Z.ltb_lt. tauto. Qed.

(** A sale inside the window gives its country a row of rank 1. *)
Lemma by_country_fact_has_row
  (db : Database) (n : nat) (start finish : Z) (f : Fact.t) :
  (1 <= n)%nat -> In f db -> in_window start finish f = true ->
  In (Fact.country f)
     (map TPC.country (top_products_by_country_query db n start finish)).
Proof.
  intros Hn If Hf.
  unfold top_products_by_country_query, top_ranked. rewrite map_map.
  cbn [select_columns TPC.country]. rewrite in_map_iff.
  destruct (products_per_country_covers db start finish f If Hf)
    as [p [Ip Hc]].
  set (ppc := products_per_country db start finish) in *.
  set (part := rows_of_key PC.country (Fact.country f) ppc).
  assert (part <> []) as Hne.
  { apply rows_of_key_nonempty. rewrite <- Hc. now apply in_map. }
  destruct (number_partition_first part Hne) as [r [Ir Hr]].
  exists r. split.
  - apply number_partition_country in Ir. destruct Ir as [q [Iq <-]].
    apply rows_of_key_In in Iq. tauto.
  - apply filter_In. split.
    + unfold ranked_products. apply in_flat_map.
      exists (Fact.country f, part). split; [|exact Ir].
      unfold sql_group_by. apply in_map_iff. exists (Fact.country f).
      split; [reflexivity|]. apply uniq_In. rewrite <- Hc.
      now apply in_map.
    + rewrite Hr. now apply Nat.leb_le.
Qed.

(** X6. With a limit of at least one row per country,
    [top_products_by_country_query] returns a row for a country exactly
    when a sale of that country lies strictly inside the window. *)
Theorem top_products_by_country_query_countries
  (db : Database) (n : nat) (start finish : Z) (c : string) :
  (1 <= n)%nat ->
  (In c (map TPC.country (top_products_by_country_query db n start finish))
   <-> exists f, In f db /\ start < Fact.dt f < finish
                 /\ Fact.country f = c).
Proof.
  intros Hn. split.
  - unfold top_products_by_country_query, top_ranked. rewrite map_map.
    cbn [select_columns TPC.country]. rewrite in_map_iff.
    intros [r [<- I]]. apply filter_In in I. destruct I as [I _].
    unfold ranked_products in I. apply in_flat_map in I.
    destruct I as [[k g] [Ig Ir]]. cbn [snd] in Ir.
    apply number_partition_country in Ir. destruct Ir as [p [Ip Hc]].
    apply (sql_group_by_In PC.country) in Ig. destruct Ig as [_ ->].
    apply rows_of_key_In in Ip. destruct Ip as [Ip _].
    apply products_per_country_In in Ip.
    destruct Ip as [f [If [Hf Hfc]]]. exists f.
    split; [exact If|]. split; [now apply in_window_spec|congruence].
  - intros [f [If [Hf <-]]].
    apply by_country_fact_has_row; [exact Hn|exact If|].
    now apply in_window_spec.
Qed.

Lemma top_products_by_country_query_countries_witness :
  (1 <= 3)%nat
  /\ (In "France"
         (map TPC.country
              (top_products_by_country_query sample_db 3 jan06 (feb11 + 1)))
      <-> exists f, In f sample_db /\ jan06 < Fact.dt f < feb11 + 1
                    /\ Fact.country f = "France").
Proof.
  split; [lia|].
  apply (top_products_by_country_query_countries
           sample_db 3 jan06 (feb11 + 1) "France").
  lia.
Defined.

(* ================================================================= *)
(** * Further properties of the callbacks *)

Lemma timeseries_query_nonempty (db : Database) :
  db <> [] -> timeseries_query db <> [].
Proof.
  destruct db as [|f t]; [congruence|]. intros _ E.
  assert (In (fact_key f) (map ts_key (timeseries_query (f :: t)))) as I.
  { rewrite timeseries_query_keys. apply uniq_In, in_map, sort_by_In.
    now left. }
  rewrite E in I. exact I.
Qed.

Lemma timeline_data_empty (boxes : option (list string)) (start finish : Z) :
  timeline_data boxes start finish [] = inl (KeyError "dt").
Proof. reflexivity. Qed.

Lemma timeline_split_data (boxes : option (list string)) (start finish : Z)
  (dat : list TS.t) :
  split_by_country boxes = true -> dat <> [] ->
  timeline_data boxes start finish dat
  = inr (map country_series
             (groupby (fun ir => TS.country (snd ir))
                      (body (window_frame start finish dat)))).
Proof.
  intros Hb Hd. rewrite (timeline_data_nonempty _ _ _ _ Hd), Hb.
  apply (timeline_by_country_ok (window_frame start finish dat) eq_refl).
Qed.

(** The x and y lists of the one series of the unticked branch. *)
Lemma timeline_aggregate_data (boxes : option (list string))
  (start finish : Z) (dat : list TS.t) :
  split_by_country boxes = false -> dat <> [] ->
  exists s,
    timeline_data boxes start finish dat = inr [s]
    /\ Scatter.x s
       = map (fun k => first_dt (rows_of_key week_year k
                                   (window_rows start finish dat)))
             (sorted_keys (map week_year (window_rows start finish dat)))
    /\ Scatter.y s
       = map (fun k => sum (map TS.sales_amount
                              (rows_of_key week_year k
                                 (window_rows start finish dat))))
             (sorted_keys (map week_year (window_rows start finish dat))).
Proof.
  intros Hb Hd. rewrite (timeline_data_nonempty _ _ _ _ Hd), Hb.
  unfold timeline_aggregate, groupby_frame, has_column. simpl.
  eexists. split; [reflexivity|].
  unfold groupby. cbn [Scatter.x Scatter.y].
  rewrite <- window_frame_rows.
  rewrite (map_map snd week_year).
  change (fun x : nat * TS.t => week_year (snd x))
    with (fun ir : nat * TS.t => (TS.week (snd ir), TS.year (snd ir))).
  set (ks := sorted_keys _).
  rewrite !map_map. cbn [fst snd body Agg.dt Agg.sales_amount].
  split; apply map_ext; intros k; unfold rows_of_key;
    now rewrite <- (map_filter_comm snd
                      (fun r => ord_eqb (week_year r) k)).
Qed.

Lemma timeline_data_returns (boxes : option (list string))
  (start finish : Z) (dat : list TS.t) :
  dat <> [] -> exists data, timeline_data boxes start finish dat = inr data.
Proof.
  intros Hd. destruct (split_by_country boxes) eqn:Hb.
  - eexists. now apply timeline_split_data.
  - destruct (timeline_aggregate_data boxes start finish dat Hb Hd)
      as [s [Hs _]].
    now exists [s].
Qed.

(** X7. For a two-element time range [timeline] returns a figure exactly
    when [order_facts] has a row; on an empty table the frame has no
    column and [df['dt']] raises [KeyError]. *)
Theorem timeline_returns_iff_table_nonempty
  (boxes : option (list string)) (start finish : Z) (db : Database) :
  ((exists fig, fst (timeline boxes [start; finish] db) = inr fig)
   <-> db <> [])
  /\ (fst (timeline boxes [start; finish] db) = inl (KeyError "dt")
      <-> db = []).
Proof.
  rewrite timeline_run. cbn [fst].
  destruct db as [|f t].
  - cbn [timeseries_query sort_by sql_group_by map uniq].
    rewrite timeline_data_empty.
    split; split; intros Hx; try congruence; try reflexivity.
    destruct Hx as [fig E]. discriminate.
  - assert (timeseries_query (f :: t) <> []) as Hd
        by (apply timeseries_query_nonempty; discriminate).
    destruct (timeline_data_returns boxes start finish _ Hd) as [data ->].
    split; split; intros Hx; try discriminate.
    now eexists.
Qed.

(** X9. A time range that does not hold exactly two values makes both
    callbacks raise [ValueError] at the unpacking, before any query. *)
Theorem callbacks_reject_malformed_range
  (boxes : option (list string)) (time_range : list Z) (db : Database) :
  List.length time_range <> 2%nat ->
  (exists msg, fst (timeline boxes time_range db) = inl (ValueError msg))
  /\ (exists msg, fst (products boxes time_range db) = inl (ValueError msg)).
Proof.
  intros Hl. unfold timeline, products, bind, lift.
  destruct time_range as [|a [|b [|c t]]]; simpl in *;
    try congruence; split; eexists; reflexivity.
Qed.

Lemma callbacks_reject_malformed_range_witness :
  List.length [jan06] <> 2%nat
  /\ (exists msg, fst (timeline None [jan06] sample_db)
                  = inl (ValueError msg))
  /\ (exists msg, fst (products None [jan06] sample_db)
                  = inl (ValueError msg)).
Proof.
  assert (List.length [jan06] <> 2%nat) as Hl by discriminate.
  split; [exact Hl|].
  exact (callbacks_reject_malformed_range None [jan06] sample_db Hl).
Defined.

Lemma window_frame_In (start finish : Z) (dat : list TS.t) (ir : nat * TS.t) :
  In ir (body (window_frame start finish dat)) ->
  start < TS.dt (snd ir) < finish.
Proof.
  unfold window_frame. cbn [body]. intros I. apply filter_In in I.
  now apply in_range_spec.
Qed.

Lemma window_rows_In (start finish : Z) (dat : list TS.t) (r : TS.t) :
  In r (window_rows start finish dat) ->
  In r dat /\ start < TS.dt r < finish.
Proof.
  unfold window_rows. intros I. apply filter_In in I.
  now rewrite <- in_range_spec.
Qed.

Lemma timeline_dates_in_range
  (boxes : option (list string)) (start finish : Z) (db : Database)
  (fig : Figure Scatter.t) :
  fst (timeline boxes [start; finish] db) = inr fig ->
  forall s d, In s (data fig) -> In d (Scatter.x s) -> start < d < finish.
Proof.
  rewrite timeline_run. cbn [fst]. intros Hfig s d Is Id.
  destruct (timeline_data boxes start finish (timeseries_query db))
    as [e|series] eqn:E; [discriminate|].
  inversion Hfig; subst fig; clear Hfig. cbn [data] in Is.
  set (dat := timeseries_query db) in *.
  assert (dat <> []) as Hd.
  { intros Hn. rewrite Hn, timeline_data_empty in E. discriminate. }
  destruct (split_by_country boxes) eqn:Hb.
  - rewrite (timeline_split_data boxes start finish dat Hb Hd) in E.
    inversion E; subst series; clear E.
    apply in_map_iff in Is. destruct Is as [[c g] [<- Ig]].
    unfold groupby in Ig. apply in_map_iff in Ig.
    destruct Ig as [k [Ek _]]. inversion Ek; subst; clear Ek.
    cbn [country_series Scatter.x snd] in Id.
    apply in_map_iff in Id. destruct Id as [ir [<- Ir]].
    apply rows_of_key_In in Ir. destruct Ir as [Ir _].
    now apply (window_frame_In start finish dat).
  - destruct (timeline_aggregate_data boxes start finish dat Hb Hd)
      as [s' [Hs [Hx _]]].
    rewrite Hs in E. inversion E; subst series; clear E.
    destruct Is as [<-|[]]. rewrite Hx in Id.
    apply in_map_iff in Id. destruct Id as [k [<- Ik]].
    apply (proj1 (sorted_keys_In _ _)) in Ik.
    pose proof (rows_of_key_nonempty week_year k _ Ik) as Hne.
    destruct (rows_of_key week_year k (window_rows start finish dat))
      as [|r g] eqn:Eg; [congruence|].
    cbn [first_dt].
    assert (In r (rows_of_key week_year k (window_rows start finish dat)))
      as Ir by (rewrite Eg; now left).
    apply rows_of_key_In in Ir. destruct Ir as [Ir _].
    now apply window_rows_In in Ir.
Qed.

(** X10. Every date a figure of [timeline] draws lies strictly inside the
    window, with the box ticked or not. *)
Theorem timeline_dates_inside_window
  (boxes : option (list string)) (start finish : Z) (db : Database)
  (fig : Figure Scatter.t) :
  fst (timeline boxes [start; finish] db) = inr fig ->
  forall s d, In s (data fig) -> In d (Scatter.x s) -> start < d < finish.
Proof. apply timeline_dates_in_range. Qed.

Lemma timeline_dates_inside_window_witness :
  fst (timeline None [jan06; feb11 + 1] sample_db)
  = inr (mkFigure
           [ Scatter.mk [jan14; feb11] [8100; 2754]
                        [PeriodId 3 2003; PeriodId 7 2003] "markers" None ]
           [("title", LStr "Sales Over Time")])
  /\ forall s d,
      In s [ Scatter.mk [jan14; feb11] [8100; 2754]
                        [PeriodId 3 2003; PeriodId 7 2003] "markers" None ] ->
      In d (Scatter.x s) -> jan06 < d < feb11 + 1.
Proof.
  split; [reflexivity|].
  exact (timeline_dates_inside_window None jan06 (feb11 + 1) sample_db
           _ eq_refl).
Defined.

Section GroupbySums.
Context {K : Type} `{Ord K} {R : Type}.
Variable key : R -> K.

Lemma groupby_partition (rows : list R) :
  Permutation
    (flat_map (fun k => rows_of_key key k rows) (sorted_keys (map key rows)))
    rows.
Proof.
  apply groups_partition.
  - apply sorted_keys_NoDup.
  - intros r I. apply sorted_keys_In. now apply in_map.
Qed.

(** Summing group by group is summing over all rows. *)
Lemma groupby_sum (amount : R -> Z) (rows : list R) :
  sum (map (fun k => sum (map amount (rows_of_key key k rows)))
           (sorted_keys (map key rows)))
  = sum (map amount rows).
Proof.
  rewrite <- sum_map_flat_map.
  apply sum_perm, Permutation_map, groupby_partition.
Qed.
End GroupbySums.

(** X11. Ticking the box regroups the sales but changes no total: on a
    non-empty table the y values of the per-country series and the y
    values of the per-period series both add up to the amounts of the rows
    of the time series inside the window. *)
Theorem timeline_totals_agree (start finish : Z) (db : Database) :
  db <> [] ->
  exists split_fig agg_fig,
    fst (timeline (Some ["by_country"]) [start; finish] db) = inr split_fig
    /\ fst (timeline None [start; finish] db) = inr agg_fig
    /\ total_y (data split_fig)
       = sum (map TS.sales_amount
                  (window_rows start finish (timeseries_query db)))
    /\ total_y (data agg_fig) = total_y (data split_fig).
Proof.
  intros Hdb. rewrite !timeline_run. cbn [fst].
  pose proof (timeseries_query_nonempty db Hdb) as Hd.
  set (dat := timeseries_query db) in *.
  rewrite (timeline_split_data (Some ["by_country"]) start finish dat
             eq_refl Hd).
  destruct (timeline_aggregate_data None start finish dat eq_refl Hd)
    as [s [Hs [_ Hy]]].
  rewrite Hs. do 2 eexists. split; [reflexivity|]. split; [reflexivity|].
  cbn [data].
  assert (total_y
            (map country_series
                 (groupby (fun ir : nat * TS.t => TS.country (snd ir))
                          (body (window_frame start finish dat))))
          = sum (map TS.sales_amount (window_rows start finish dat))) as Hsplit.
  { unfold total_y, groupby. rewrite sum_flat_map, !map_map.
    cbn [country_series Scatter.y snd].
    rewrite (groupby_sum (fun ir : nat * TS.t => TS.country (snd ir))
               (fun ir : nat * TS.t => TS.sales_amount (snd ir))).
    now rewrite <- (map_map snd TS.sales_amount), window_frame_rows. }
  split; [exact Hsplit|]. rewrite Hsplit.
  unfold total_y. cbn [flat_map]. rewrite app_nil_r, Hy.
  apply groupby_sum.
Qed.

Lemma timeline_totals_agree_witness :
  sample_db <> []
  /\ exists split_fig agg_fig,
      fst (timeline (Some ["by_country"]) [jan06; feb11 + 1] sample_db)
      = inr split_fig
      /\ fst (timeline None [jan06; feb11 + 1] sample_db) = inr agg_fig
      /\ total_y (data split_fig)
         = sum (map TS.sales_amount
                    (window_rows jan06 (feb11 + 1)
                                 (timeseries_query sample_db)))
      /\ total_y (data agg_fig) = total_y (data split_fig).
Proof.
  assert (sample_db <> []) as Hdb by discriminate.
  split; [exact Hdb|].
  exact (timeline_totals_agree jan06 (feb11 + 1) sample_db Hdb).
Defined.

Lemma product_totals_nonempty (db : Database) (start finish : Z)
  (f : Fact.t) :
  In f db -> in_window start finish f = true ->
  product_totals db start finish <> [].
Proof.
  intros If Hf E. unfold product_totals in E. apply map_eq_nil in E.
  assert (In f (flat_map snd
                  (sql_group_by
                     (fun r => (Fact.product_code r, Fact.product_name r))
                     (filter (in_window start finish) db)))) as I.
  { apply (Permutation_in
             _ (Permutation_sym (sql_group_by_partition _ _))).
    now apply filter_In. }
  rewrite E in I. exact I.
Qed.

Lemma top_products_query_nonempty (db : Database) (n : nat)
  (start finish : Z) (f : Fact.t) :
  (1 <= n)%nat -> In f db -> in_window start finish f = true ->
  top_products_query db n start finish <> [].
Proof.
  intros Hn If Hf.
  change (top_products_query db n start finish)
    with (firstn n (sort_by (sales_desc TP.sales_amount)
                            (product_totals db start finish))).
  pose proof (product_totals_nonempty db start finish f If Hf) as Hne.
  pose proof (sort_by_length (sales_desc TP.sales_amount)
                             (product_totals db start finish)) as Hl.
  destruct (sort_by (sales_desc TP.sales_amount)
                    (product_totals db start finish)) as [|x t].
  - destruct (product_totals db start finish); [congruence|discriminate].
  - destruct n; [lia|]. discriminate.
Qed.

Lemma window_has_fact (start finish : Z) (db : Database) :
  filter (in_window start finish) db <> [] <->
  exists f, In f db /\ start < Fact.dt f < finish.
Proof.
  split.
  - destruct (filter (in_window start finish) db) as [|f t] eqn:E;
      [congruence|].
    intros _. assert (In f (filter (in_window start finish) db)) as I
        by (rewrite E; now left).
    apply filter_In in I. exists f. now rewrite <- in_window_spec.
  - intros [f [If Hf]] E.
    assert (In f (filter (in_window start finish) db)) as I
        by (apply filter_In; now rewrite in_window_spec).
    rewrite E in I. exact I.
Qed.

(** X8. For a two-element time range [products] returns a figure exactly
    when some sale lies strictly inside the window, whether the box is
    ticked or not; in every other case it raises. *)
Theorem products_returns_iff_window_has_sale
  (boxes : option (list string)) (start finish : Z) (db : Database) :
  (exists fig, fst (products boxes [start; finish] db) = inr fig)
  <-> exists f, In f db /\ start < Fact.dt f < finish.
Proof.
  rewrite <- window_has_fact. split.
  - intros [fig Hfig] E.
    rewrite (products_raises_without_rows boxes start finish db E) in Hfig.
    discriminate.
  - intros Hne. apply window_has_fact in Hne.
    destruct Hne as [f [If Hf]]. apply in_window_spec in Hf.
    rewrite products_run. cbn [fst].
    destruct (split_by_country boxes).
    + assert (top_products_by_country_query db 3 start finish <> []) as Hr.
      { intros E.
        pose proof (by_country_fact_has_row db 3 start finish f
                      (le_S _ _ (le_S _ _ (le_n 1))) If Hf) as I.
        rewrite E in I. exact I. }
      destruct (products_by_country_one_series_per_product _ Hr)
        as [data [names [-> _]]].
      now eexists.
    + assert (top_products_query db 5 start finish <> []) as Hr
          by (apply (top_products_query_nonempty db 5 start finish f);
              [lia|exact If|exact Hf]).
      destruct (products_aggregate_one_series _ Hr) as [b [-> _]].
      now eexists.
Qed.

Lemma map_of_flat_map {A B C} (f : B -> C) (g : A -> list B) (l : list A) :
  map f (flat_map g l) = flat_map (fun a => map f (g a)) l.
Proof.
  induction l as [|a t IH]; simpl; [reflexivity|].
  now rewrite map_app, IH.
Qed.

Lemma flat_map_of_map {A B C} (f : A -> B) (g : B -> list C) (l : list A) :
  flat_map g (map f l) = flat_map (fun a => g (f a)) l.
Proof. induction l as [|a t IH]; simpl; [reflexivity|]. now rewrite IH. Qed.

(** The labels [pd.DataFrame] gives the records are their positions. *)
Lemma range_index_In {R} (rows : list R) (a i : nat) (r : R) :
  In (i, r) (combine (seq a (List.length rows)) rows)
  <-> (a <= i)%nat /\ nth_error rows (i - a) = Some r.
Proof.
  revert a. induction rows as [|x t IH]; intros a; simpl.
  - split; [contradiction|]. intros [_ E]. destruct (i - a)%nat; discriminate.
  - rewrite IH. split.
    + intros [E|[L N]].
      * inversion E; subst. split; [lia|]. now rewrite Nat.sub_diag.
      * split; [lia|]. replace (i - a)%nat with (S (i - S a)) by lia.
        exact N.
    + intros [L N]. destruct (Nat.eq_dec i a) as [->|Hne].
      * rewrite Nat.sub_diag in N. inversion N. now left.
      * right. split; [lia|].
        replace (i - a)%nat with (S (i - S a)) in N by lia. exact N.
Qed.

Lemma window_frame_labels (start finish : Z) (dat : list TS.t) :
  NoDup (map fst (body (window_frame start finish dat))).
Proof.
  unfold window_frame. cbn [body]. apply NoDup_keys_filter.
  rewrite map_fst_combine by apply length_seq. apply seq_NoDup.
Qed.

Lemma window_frame_label (start finish : Z) (dat : list TS.t) (i : nat) :
  In i (map fst (body (window_frame start finish dat)))
  <-> exists r, nth_error dat i = Some r /\ start < TS.dt r < finish.
Proof.
  unfold window_frame. cbn [body]. rewrite in_map_iff. split.
  - intros [[j r] [E I]]. cbn [fst] in E. subst j.
    apply filter_In in I. destruct I as [I Hr].
    apply range_index_In in I. destruct I as [_ I].
    rewrite Nat.sub_0_r in I. exists r. now rewrite <- in_range_spec.
  - intros [r [N Hr]]. exists (i, r). split; [reflexivity|].
    apply filter_In. split.
    + apply range_index_In. rewrite Nat.sub_0_r. split; [lia|exact N].
    + now apply in_range_spec.
Qed.

Lemma split_ids_perm (rows : list (nat * TS.t)) :
  Permutation
    (flat_map Scatter.ids
       (map country_series
            (groupby (fun ir : nat * TS.t => TS.country (snd ir)) rows)))
    (map RowId (map fst rows)).
Proof.
  unfold groupby. rewrite map_map, flat_map_of_map.
  cbn [country_series Scatter.ids snd].
  transitivity
    (map RowId
         (map fst
              (flat_map
                 (fun k =>
                    rows_of_key (fun ir : nat * TS.t => TS.country (snd ir))
                                k rows)
                 (sorted_keys
                    (map (fun ir : nat * TS.t => TS.country (snd ir))
                         rows))))).
  - rewrite !map_of_flat_map. reflexivity.
  - apply Permutation_map, Permutation_map, groupby_partition.
Qed.

(** X12. With the box ticked every kept row of the time series is drawn
    exactly once, under its own id: the ids of all series are pairwise
    distinct, and [i] is among them exactly when row [i] of the query
    result is dated strictly inside the window. *)
Theorem timeline_split_ids
  (boxes : option (list string)) (start finish : Z) (dat : list TS.t) :
  split_by_country boxes = true ->
  dat <> [] ->
  exists data,
    timeline_data boxes start finish dat = inr data
    /\ NoDup (flat_map Scatter.ids data)
    /\ (forall i, In (RowId i) (flat_map Scatter.ids data) <->
                  exists r, nth_error dat i = Some r
                            /\ start < TS.dt r < finish)
    /\ List.length (flat_map Scatter.ids data)
       = List.length (window_rows start finish dat).
Proof.
  intros Hb Hd. rewrite (timeline_split_data boxes start finish dat Hb Hd).
  eexists. split; [reflexivity|].
  pose proof (split_ids_perm (body (window_frame start finish dat))) as Hp.
  assert (forall l : list nat, NoDup l -> NoDup (map RowId l)) as Hinj.
  { induction 1 as [|x l Hx Hl IH]; simpl; constructor; [|exact IH].
    intros I. apply in_map_iff in I. destruct I as [y [E Iy]].
    inversion E; subst. contradiction. }
  split; [|split].
  - apply (Permutation_NoDup (Permutation_sym Hp)).
    apply Hinj, window_frame_labels.
  - intros i. rewrite <- window_frame_label. split.
    + intros I. apply (Permutation_in _ Hp) in I.
      apply in_map_iff in I. destruct I as [j [E Ij]].
      now inversion E; subst.
    + intros I. apply (Permutation_in _ (Permutation_sym Hp)).
      now apply in_map.
  - rewrite (Permutation_length Hp), !length_map.
    rewrite <- window_frame_rows. now rewrite length_map.
Qed.

Lemma timeline_split_ids_witness :
  split_by_country (Some ["by_country"]) = true
  /\ timeseries_query sample_db <> []
  /\ exists data,
      timeline_data (Some ["by_country"]) jan06 (feb11 + 1)
                    (timeseries_query sample_db) = inr data
      /\ NoDup (flat_map Scatter.ids data)
      /\ (forall i, In (RowId i) (flat_map Scatter.ids data) <->
                    exists r, nth_error (timeseries_query sample_db) i
                              = Some r
                              /\ jan06 < TS.dt r < feb11 + 1)
      /\ List.length (flat_map Scatter.ids data)
         = List.length (window_rows jan06 (feb11 + 1)
                                    (timeseries_query sample_db)).
Proof.
  assert (timeseries_query sample_db <> []) as Hd
      by (vm_compute; discriminate).
  split; [reflexivity|]. split; [exact Hd|].
  exact (timeline_split_ids (Some ["by_country"]) jan06 (feb11 + 1)
           (timeseries_query sample_db) eq_refl Hd).
Defined.

(** X13. With the box unticked and a sale inside the window, the figure of
    [products] is one unnamed series of between one and five bars, one
    label per bar, the bars in descending order of their amounts. *)
Theorem products_unsplit_bars
  (boxes : option (list string)) (start finish : Z) (db : Database)
  (f : Fact.t) :
  split_by_country boxes = false ->
  In f db -> start < Fact.dt f < finish ->
  exists b layout,
    fst (products boxes [start; finish] db) = inr (mkFigure [b] layout)
    /\ (1 <= List.length (Bar.x b) <= 5)%nat
    /\ List.length (Bar.y b) = List.length (Bar.x b)
    /\ StronglySorted Z.ge (Bar.x b)
    /\ Bar.name b = None.
Proof.
  intros Hb If Hf. apply in_window_spec in Hf.
  rewrite products_run, Hb. cbn [fst].
  assert (top_products_query db 5 start finish <> []) as Hr
      by (apply (top_products_query_nonempty db 5 start finish f);
          [lia|exact If|exact Hf]).
  destruct (products_aggregate_one_series _ Hr) as [b [-> [Hx [Hy Hn]]]].
  exists b. eexists. split; [reflexivity|].
  rewrite Hx, Hy, !length_map.
  split; [|split; [reflexivity|split; [|exact Hn]]].
  - split.
    + destruct (top_products_query db 5 start finish); [congruence|].
      simpl. lia.
    + unfold top_products_query. apply firstn_le_length.
  - unfold top_products_query.
    apply sorted_map_desc, firstn_sorted, sort_desc_sorted.
Qed.

Lemma products_unsplit_bars_witness :
  split_by_country None = false
  /\ In (Fact.mk "S18_2248" "1911 Ford Town Car" "USA" jan14 2003 3 3000)
        sample_db
  /\ jan06 < jan14 < feb11
  /\ exists b layout,
      fst (products None [jan06; feb11] sample_db)
      = inr (mkFigure [b] layout)
      /\ (1 <= List.length (Bar.x b) <= 5)%nat
      /\ List.length (Bar.y b) = List.length (Bar.x b)
      /\ StronglySorted Z.ge (Bar.x b)
      /\ Bar.name b = None.
Proof.
  assert (In (Fact.mk "S18_2248" "1911 Ford Town Car" "USA" jan14 2003 3 3000)
             sample_db) as If by (do 3 right; now left).
  assert (jan06 < jan14 < feb11) as Hf by (vm_compute; split; reflexivity).
  split; [reflexivity|]. split; [exact If|]. split; [exact Hf|].
  exact (products_unsplit_bars None jan06 feb11 sample_db _ eq_refl If Hf).
Defined.

Lemma rows_per_country_le (db : Database) (n : nat) (start finish : Z)
  (c : string) :
  (List.length
     (filter (fun r => String.eqb (TPC.country r) c)
             (top_products_by_country_query db n start finish)) <= n)%nat.
Proof.
  unfold top_products_by_country_query.
  rewrite <- (map_filter_comm select_columns
                (fun r => String.eqb (TPC.country r) c)).
  rewrite length_map. cbn [select_columns TPC.country].
  unfold top_ranked. rewrite filter_comm.
  destruct (ranked_products_partition db start finish c) as [part ->].
  rewrite <- (length_map Ranked.row_number).
  rewrite (map_filter_comm Ranked.row_number (fun i => (i <=? n)%nat)).
  rewrite number_partition_ranks, filter_le_seq, length_seq. lia.
Qed.

Lemma Forall2_flat_map {A B C} (P : A -> B -> Prop)
  (f : A -> list C) (g : B -> list C) (la : list A) (lb : list B) :
  (forall a b, P a b -> g b = f a) ->
  Forall2 P la lb -> flat_map g lb = flat_map f la.
Proof.
  intros Hfg. induction 1 as [|a b la lb Hab Hl IH]; simpl; [reflexivity|].
  now rewrite (Hfg a b Hab), IH.
Qed.

(** X14. With the box ticked and a sale inside the window, the figure of
    [products] draws every row of the query result exactly once, as the
    bar (sales amount, country) of the series of its product, and no
    country carries more than three bars. *)
Theorem products_split_bars
  (boxes : option (list string)) (start finish : Z) (db : Database)
  (f : Fact.t) :
  split_by_country boxes = true ->
  In f db -> start < Fact.dt f < finish ->
  exists fig,
    fst (products boxes [start; finish] db) = inr fig
    /\ Permutation
         (bars (data fig))
         (map (fun r => (TPC.sales_amount r, TPC.country r))
              (top_products_by_country_query db 3 start finish))
    /\ (forall c,
           (List.length (filter (fun p => String.eqb (snd p) c)
                                (bars (data fig))) <= 3)%nat).
Proof.
  intros Hb If Hf. apply in_window_spec in Hf.
  rewrite products_run, Hb. cbn [fst].
  set (res := top_products_by_country_query db 3 start finish).
  assert (res <> []) as Hr.
  { intros E.
    pose proof (by_country_fact_has_row db 3 start finish f
                  (le_S _ _ (le_S _ _ (le_n 1))) If Hf) as I.
    fold res in I. rewrite E in I. exact I. }
  destruct (products_by_country_one_series_per_product res Hr)
    as [series [names [-> [_ [Hnd [Hcov Hbars]]]]]].
  eexists. split; [reflexivity|]. cbn [data].
  assert (Permutation
            (bars series)
            (map (fun r => (TPC.sales_amount r, TPC.country r)) res)) as Hp.
  { unfold bars.
    rewrite (Forall2_flat_map _
               (fun p => map (fun r => (TPC.sales_amount r, TPC.country r))
                             (rows_of_key TPC.product_name p res))
               _ names series (fun p b Hpb => Hpb) Hbars).
    rewrite <- map_of_flat_map. apply Permutation_map.
    apply groups_partition; [exact Hnd|].
    intros r I. apply Hcov. now apply in_map. }
  split; [exact Hp|]. intros c.
  rewrite (Permutation_length (filter_perm _ _ _ Hp)).
  rewrite <- (map_filter_comm
                (fun r => (TPC.sales_amount r, TPC.country r))
                (fun p => String.eqb (snd p) c)).
  rewrite length_map. cbn [snd]. apply rows_per_country_le.
Qed.

Lemma products_split_bars_witness :
  split_by_country (Some ["by_country"]) = true
  /\ In (Fact.mk "S18_2248" "1911 Ford Town Car" "USA" jan14 2003 3 3000)
        sample_db
  /\ jan06 < jan14 < feb11
  /\ exists fig,
      fst (products (Some ["by_country"]) [jan06; feb11] sample_db) = inr fig
      /\ Permutation
           (bars (data fig))
           (map (fun r => (TPC.sales_amount r, TPC.country r))
                (top_products_by_country_query sample_db 3 jan06 feb11))
      /\ (forall c,
             (List.length (filter (fun p => String.eqb (snd p) c)
                                  (bars (data fig))) <= 3)%nat).
Proof.
  assert (In (Fact.mk "S18_2248" "1911 Ford Town Car" "USA" jan14 2003 3 3000)
             sample_db) as If by (do 3 right; now left).
  assert (jan06 < jan14 < feb11) as Hf by (vm_compute; split; reflexivity).
  split; [reflexivity|]. split; [exact If|]. split; [exact Hf|].
  exact (products_split_bars (Some ["by_country"]) jan06 feb11 sample_db _
           eq_refl If Hf).
Defined.

(* ================================================================= *)
(** * Start-up *)

Lemma timerange_query_cases (db : Database) :
  (db = [] /\ timerange_query db = (None, None))
  \/ (db <> []
      /\ timerange_query db
         = (Some (min_list (map Fact.dt db)), Some (max_list (map Fact.dt db)))).
Proof.
  destruct db as [|f t]; [left; split; reflexivity|].
  right. split; [discriminate|reflexivity].
Qed.

(** X15. [get_data_timerange] returns [(None, None)] on an empty table;
    otherwise it returns the dates of the earliest and of the latest sale,
    which bound the date of every sale. *)
Theorem get_data_timerange_bounds (db : Database) :
  match fst (get_data_timerange db) with
  | inr (Some lo, Some hi) =>
      db <> []
      /\ (forall f, In f db -> lo <= Fact.dt f <= hi)
      /\ (exists f, In f db /\ Fact.dt f = lo)
      /\ (exists f, In f db /\ Fact.dt f = hi)
  | inr (None, None) => db = []
  | _ => False
  end.
Proof.
  unfold get_data_timerange. cbn [fst].
  destruct (timerange_query_cases db) as [[E ->]|[Hne ->]]; [exact E|].
  assert (map Fact.dt db <> []) as Hm
      by (intros E; apply map_eq_nil in E; contradiction).
  split; [exact Hne|]. split; [|split].
  - intros f If. split.
    + apply min_list_le. now apply in_map.
    + apply max_list_ge. now apply in_map.
  - pose proof (min_list_In _ Hm) as I. apply in_map_iff in I.
    destruct I as [f [E If]]. now exists f.
  - pose proof (max_list_In _ Hm) as I. apply in_map_iff in I.
    destruct I as [f [E If]]. now exists f.
Qed.

Lemma timeseries_query_earliest (db : Database) :
  db <> [] ->
  exists r, In r (timeseries_query db)
            /\ TS.dt r = min_list (map Fact.dt db).
Proof.
  intros Hne.
  assert (map Fact.dt db <> []) as Hm
      by (intros E; apply map_eq_nil in E; contradiction).
  pose proof (min_list_In _ Hm) as I. apply in_map_iff in I.
  destruct I as [f [Ef If]].
  assert (In (fact_key f) (map ts_key (timeseries_query db))) as Ik.
  { rewrite timeseries_query_keys. apply uniq_In, in_map, sort_by_In.
    exact If. }
  apply in_map_iff in Ik. destruct Ik as [r [Ek Ir]].
  exists r. split; [exact Ir|].
  destruct (timeseries_query_rows db r Ir) as [g [Hp [Hg [_ Hd]]]].
  assert (In f g) as Ifg.
  { apply (Permutation_in _ (Permutation_sym Hp)).
    apply rows_of_key_In. split; [exact If|now symmetry]. }
  assert (TS.dt r <= Fact.dt f) as Hle
      by (rewrite Hd; apply min_list_le; now apply in_map).
  assert (In (TS.dt r) (map Fact.dt g)) as Id.
  { rewrite Hd. apply min_list_In. intros E.
    apply map_eq_nil in E. contradiction. }
  apply in_map_iff in Id. destruct Id as [f' [Ef' If']].
  apply (Permutation_in _ Hp) in If'. apply rows_of_key_In in If'.
  assert (min_list (map Fact.dt db) <= Fact.dt f') as Hge
      by (apply min_list_le, in_map; tauto).
  lia.
Qed.

Lemma filter_implied {A} (p q : A -> bool) (l : list A) :
  (forall a, p a = true -> q a = true) ->
  filter p (filter q l) = filter p l.
Proof.
  intros Hpq. induction l as [|a t IH]; simpl; [reflexivity|].
  destruct (q a) eqn:Q; simpl.
  - now rewrite IH.
  - destruct (p a) eqn:P; [|exact IH].
    rewrite (Hpq a P) in Q. discriminate.
Qed.

(* ================================================================= *)
(** * The marks of the slider *)


Lemma dt_leb_cases (a b : DT.t) :
  dt_leb a b = true <->
  DT.year a < DT.year b
  \/ (DT.year a = DT.year b
      /\ (DT.month a < DT.month b
          \/ (DT.month a = DT.month b
              /\ (DT.day a < DT.day b
                  \/ (DT.day a = DT.day b
                      /\ DT.second a <= DT.second b))))).
Proof.
  unfold dt_leb.
  destruct (Z.ltb_spec (DT.year a) (DT.year b));
    destruct (Z.ltb_spec (DT.year b) (DT.year a));
    destruct (Z.ltb_spec (DT.month a) (DT.month b));
    destruct (Z.ltb_spec (DT.month b) (DT.month a));
    destruct (Z.ltb_spec (DT.day a) (DT.day b));
    destruct (Z.ltb_spec (DT.day b) (DT.day a));
    destruct (Z.leb_spec (DT.second a) (DT.second b));
    split; intros; try discriminate; try reflexivity; lia.
Qed.

Lemma dt_leb_refl (a : DT.t) : dt_leb a a = true.
Proof. apply dt_leb_cases. lia. Qed.

Lemma dt_leb_month_index (a b : DT.t) :
  valid_month a -> valid_month b ->
  dt_leb a b = true -> month_index a <= month_index b.
Proof.
  unfold valid_month, month_index. intros Ha Hb H.
  apply dt_leb_cases in H. lia.
Qed.

Lemma month_index_dt_lt (a b : DT.t) :
  valid_month a -> valid_month b ->
  month_index a < month_index b ->
  dt_leb a b = true /\ dt_leb b a = false.
Proof.
  unfold valid_month, month_index. intros Ha Hb H. split.
  - apply dt_leb_cases. lia.
  - apply not_true_iff_false. intros E. apply dt_leb_cases in E. lia.
Qed.

Lemma plus_three_months_inr (d d' : DT.t) :
  valid_month d ->
  plus_three_months d = inr d' ->
  valid_month d'
  /\ month_index d' = month_index d + 3
  /\ DT.year d' <= 9999
  /\ DT.second d' = DT.second d
  /\ DT.day d' = Z.min (days_in_month (DT.year d') (DT.month d')) (DT.day d).
Proof.
  unfold valid_month, month_index, plus_three_months. intros Hm.
  destruct (Z.gtb_spec (DT.month d + 3) 12) as [G|L].
  - destruct (Z.gtb_spec (DT.year d + 1) 9999); [discriminate|].
    intros E. inversion E; subst; clear E. cbn. repeat split; lia.
  - destruct (Z.gtb_spec (DT.year d) 9999); [discriminate|].
    intros E. inversion E; subst; clear E. cbn. repeat split; lia.
Qed.

Lemma plus_three_months_inl (d : DT.t) (e : exn) :
  plus_three_months d = inl e ->
  e = ValueError "year 10000 is out of range"
  /\ 9999 <= DT.year d.
Proof.
  unfold plus_three_months.
  destruct (Z.gtb_spec (DT.month d + 3) 12) as [G|L].
  - destruct (Z.gtb_spec (DT.year d + 1) 9999); [|discriminate].
    intros E. inversion E. split; [reflexivity|lia].
  - destruct (Z.gtb_spec (DT.year d) 9999); [|discriminate].
    intros E. inversion E. split; [reflexivity|lia].
Qed.

Lemma days_in_month_bounds (y m : Z) : 28 <= days_in_month y m <= 31.
Proof.
  unfold days_in_month.
  destruct (m =? 2); [destruct (is_leap y); lia|].
  destruct ((m =? 4) || (m =? 6) || (m =? 9) || (m =? 11)); lia.
Qed.

Lemma plus_three_months_valid (d d' : DT.t) :
  valid_datetime d ->
  plus_three_months d = inr d' ->
  valid_datetime d'.
Proof.
  intros [Hy [Hm [Hd Hs]]] E.
  destruct (plus_three_months_inr d d' Hm E) as [Hm' [Hi [Hy' [Hs' Hd']]]].
  unfold valid_datetime, valid_month, month_index in *.
  pose proof (days_in_month_bounds (DT.year d') (DT.month d')).
  repeat split; try lia.
Qed.

(** More fuel does not change what the loop returns. *)
Lemma marks_loop_more_fuel (fuel : nat) (current end_ : DT.t)
  (r : result (list DT.t)) :
  marks_loop fuel current end_ = Some r ->
  forall fuel', (fuel <= fuel')%nat -> marks_loop fuel' current end_ = Some r.
Proof.
  revert current r. induction fuel as [|fuel IH]; intros current r.
  - simpl. destruct (dt_leb current end_) eqn:L; [discriminate|].
    intros E fuel' _. destruct fuel'; simpl; now rewrite L.
  - simpl. destruct (dt_leb current end_) eqn:L.
    + intros E [|fuel'] Hle; [lia|]. simpl. rewrite L.
      destruct (plus_three_months current) as [e|next]; [exact E|].
      destruct (marks_loop fuel next end_) as [r'|] eqn:En; [|discriminate].
      rewrite (IH next r' En fuel') by lia. exact E.
    + intros E fuel' _. destruct fuel'; simpl; now rewrite L.
Qed.

(** The loop ends before a fuel above the number of months left runs
    out. *)
Lemma marks_loop_ends (fuel : nat) (current end_ : DT.t) :
  valid_month current -> valid_month end_ ->
  month_index end_ - month_index current < Z.of_nat fuel ->
  exists r, marks_loop fuel current end_ = Some r.
Proof.
  intros Hc He. revert current Hc.
  induction fuel as [|fuel IH]; intros current Hc Hf.
  - simpl. destruct (dt_leb current end_) eqn:L; [|now eexists].
    pose proof (dt_leb_month_index current end_ Hc He L). lia.
  - simpl. destruct (dt_leb current end_) eqn:L; [|now eexists].
    destruct (plus_three_months current) as [e|next] eqn:En; [now eexists|].
    destruct (plus_three_months_inr current next Hc En) as [Hn [Hi _]].
    destruct (IH next Hn) as [r ->]; [lia|].
    destruct r; now eexists.
Qed.

(** X19. The loop of [get_marks] terminates: for a start and an end whose
    months are months, the fuel [get_marks] takes is enough, and any
    larger fuel gives the same result. *)
Theorem get_marks_terminates (start end_ : DT.t) :
  valid_month start -> valid_month end_ ->
  exists r,
    (forall fuel, (marks_fuel start end_ <= fuel)%nat ->
                  marks_loop fuel start end_ = Some r)
    /\ get_marks start end_ <> None.
Proof.
  intros Hs He.
  destruct (marks_loop_ends (marks_fuel start end_) start end_ Hs He)
    as [r Hr]; [unfold marks_fuel; lia|].
  exists r. split.
  - intros fuel Hf. now apply (marks_loop_more_fuel _ _ _ _ Hr).
  - unfold get_marks. rewrite Hr. destruct r; discriminate.
Qed.

Lemma get_marks_terminates_witness :
  valid_month first_order /\ valid_month last_order
  /\ exists r,
      (forall fuel, (marks_fuel first_order last_order <= fuel)%nat ->
                    marks_loop fuel first_order last_order = Some r)
      /\ get_marks first_order last_order <> None.
Proof.
  assert (valid_month first_order) as Hs by (vm_compute; intuition discriminate).
  assert (valid_month last_order) as He by (vm_compute; intuition discriminate).
  split; [exact Hs|]. split; [exact He|].
  exact (get_marks_terminates first_order last_order Hs He).
Defined.

Lemma last_default {A} (l : list A) (d d' : A) :
  l <> [] -> last l d = last l d'.
Proof.
  induction l as [|a t IH]; [congruence|]. intros _.
  destruct t as [|b t']; [reflexivity|].
  change (last (a :: b :: t') d) with (last (b :: t') d).
  change (last (a :: b :: t') d') with (last (b :: t') d').
  apply IH. discriminate.
Qed.

Lemma marks_loop_inr (fuel : nat) (current end_ : DT.t) (ms : list DT.t) :
  marks_loop fuel current end_ = Some (inr ms) ->
  (dt_leb current end_ = false /\ ms = [])
  \/ (dt_leb current end_ = true
      /\ exists fuel' next rest,
          fuel = S fuel'
          /\ plus_three_months current = inr next
          /\ marks_loop fuel' next end_ = Some (inr rest)
          /\ ms = current :: rest).
Proof.
  destruct fuel as [|fuel]; simpl;
    destruct (dt_leb current end_) eqn:L; intros E.
  - discriminate.
  - left. split; [reflexivity|]. now inversion E.
  - right. split; [reflexivity|].
    destruct (plus_three_months current) as [e|next]; [discriminate|].
    destruct (marks_loop fuel next end_) as [[e|rest]|] eqn:En;
      try discriminate.
    inversion E. now exists fuel, next, rest.
  - left. split; [reflexivity|]. now inversion E.
Qed.

Lemma marks_loop_content (fuel : nat) (current end_ : DT.t)
  (ms : list DT.t) :
  valid_month current -> valid_month end_ ->
  marks_loop fuel current end_ = Some (inr ms) ->
  hd_error ms = (if dt_leb current end_ then Some current else None)
  /\ three_months_apart ms
  /\ Forall (fun m => valid_month m
                      /\ month_index current <= month_index m
                      /\ dt_leb current m = true
                      /\ dt_leb m end_ = true) ms
  /\ (ms = []
      \/ exists next, plus_three_months (last ms current) = inr next
                      /\ dt_leb next end_ = false).
Proof.
  intros Hc He. revert current ms Hc.
  induction fuel as [|fuel IH]; intros current ms Hc E;
    apply marks_loop_inr in E;
    destruct E as [[L ->]|[L [fuel' [next [rest [Ef [En [Er ->]]]]]]]];
    try discriminate; rewrite L;
    try (repeat split; [constructor|now left]).
  inversion Ef; subst fuel'; clear Ef.
  destruct (plus_three_months_inr current next Hc En) as [Hn [Hi _]].
  destruct (IH next rest Hn Er) as [Hhd [Hch [Hall Hlast]]].
  split; [reflexivity|]. split; [|split].
  - destruct rest as [|b rest']; [exact I|].
    cbn [three_months_apart]. split; [|exact Hch].
    cbn [hd_error] in Hhd. destruct (dt_leb next end_); [|discriminate].
    now inversion Hhd.
  - constructor.
    + split; [exact Hc|]. split; [lia|].
      split; [apply dt_leb_refl|exact L].
    + eapply Forall_impl; [|exact Hall].
      intros m [Hm [Hmi [_ Hme]]].
      split; [exact Hm|]. split; [lia|]. split; [|exact Hme].
      apply (month_index_dt_lt current m Hc Hm). lia.
  - right. destruct rest as [|b rest'].
    + exists next. split; [exact En|].
      cbn [hd_error] in Hhd. destruct (dt_leb next end_); [discriminate|].
      reflexivity.
    + destruct Hlast as [Hnil|[next' [Hp Hl]]]; [discriminate|].
      exists next'. split; [|exact Hl].
      change (last (current :: b :: rest') current)
        with (last (b :: rest') current).
      rewrite (last_default (b :: rest') current next); [exact Hp|].
      discriminate.
Qed.

Lemma marks_loop_no_raise (fuel : nat) (current end_ : DT.t) (e : exn) :
  valid_month current -> valid_month end_ ->
  DT.year end_ <= 9998 ->
  marks_loop fuel current end_ <> Some (inl e).
Proof.
  intros Hc He Hy. revert current Hc.
  induction fuel as [|fuel IH]; intros current Hc; simpl;
    destruct (dt_leb current end_) eqn:L; try discriminate.
  destruct (plus_three_months current) as [e'|next] eqn:En.
  - apply plus_three_months_inl in En. destruct En as [_ En].
    apply dt_leb_cases in L. lia.
  - destruct (plus_three_months_inr current next Hc En) as [Hn _].
    specialize (IH next Hn).
    destruct (marks_loop fuel next end_) as [[e'|rest]|];
      [exact IH|discriminate|discriminate].
Qed.



Lemma valid_datetime_month (d : DT.t) : valid_datetime d -> valid_month d.
Proof. unfold valid_datetime, valid_month. tauto. Qed.

Lemma marks_loop_days (fuel : nat) (current end_ : DT.t) (ms : list DT.t) :
  valid_datetime current ->
  marks_loop fuel current end_ = Some (inr ms) ->
  Forall (fun m => valid_datetime m
                   /\ DT.second m = DT.second current
                   /\ DT.day m <= DT.day current
                   /\ (DT.day current <= 28 -> DT.day m = DT.day current)) ms
  /\ StronglySorted (fun a b => DT.day b <= DT.day a) ms.
Proof.
  revert current ms.
  induction fuel as [|fuel IH]; intros current ms Hc E;
    apply marks_loop_inr in E;
    destruct E as [[L ->]|[L [fuel' [next [rest [Ef [En [Er ->]]]]]]]];
    try discriminate; try solve [split; constructor].
  inversion Ef; subst fuel'; clear Ef.
  pose proof (plus_three_months_valid current next Hc En) as Hn.
  destruct (plus_three_months_inr current next
              (valid_datetime_month current Hc) En)
    as [_ [_ [_ [Hsec Hday]]]].
  pose proof (days_in_month_bounds (DT.year next) (DT.month next)) as Hdim.
  destruct (IH next rest Hn Er) as [Hall Hsorted].
  assert (Forall (fun m => valid_datetime m
                           /\ DT.second m = DT.second current
                           /\ DT.day m <= DT.day current
                           /\ (DT.day current <= 28 ->
                               DT.day m = DT.day current)) rest) as Hrest.
  { eapply Forall_impl; [|exact Hall].
    intros m [Hm [Hs [Hd H28]]].
    split; [exact Hm|]. split; [congruence|]. split; [lia|].
    intros Hc28. rewrite H28; lia. }
  split.
  - constructor; [|exact Hrest].
    split; [exact Hc|]. split; [reflexivity|]. split; [lia|reflexivity].
  - constructor; [exact Hsorted|].
    eapply Forall_impl; [|exact Hrest].
    intros m [_ [_ [Hd _]]]. exact Hd.
Qed.

(** X21. Every mark is a date of the calendar with the time of day of
    [start]; adding three months cuts the day to the length of the month
    and never gives it back, so the days of the marks never increase, none
    exceeds the day of [start], and all are the day of [start] when that
    is at most 28. *)
Theorem get_marks_days (start end_ : DT.t) (ms : list DT.t) :
  valid_datetime start ->
  marks_loop (marks_fuel start end_) start end_ = Some (inr ms) ->
  Forall (fun m => valid_datetime m
                   /\ DT.second m = DT.second start
                   /\ DT.day m <= DT.day start
                   /\ (DT.day start <= 28 -> DT.day m = DT.day start)) ms
  /\ StronglySorted (fun a b => DT.day b <= DT.day a) ms.
Proof. apply marks_loop_days. Qed.

Lemma get_marks_days_witness :
  valid_datetime month_end
  /\ marks_loop (marks_fuel month_end last_order) month_end last_order
     = Some (inr [ DT.mk 2003 1 31 36000; DT.mk 2003 4 30 36000;
                   DT.mk 2003 7 30 36000; DT.mk 2003 10 30 36000;
                   DT.mk 2004 1 30 36000; DT.mk 2004 4 30 36000;
                   DT.mk 2004 7 30 36000; DT.mk 2004 10 30 36000;
                   DT.mk 2005 1 30 36000; DT.mk 2005 4 30 36000 ])
  /\ Forall (fun m => valid_datetime m
                      /\ DT.second m = DT.second month_end
                      /\ DT.day m <= DT.day month_end
                      /\ (DT.day month_end <= 28 ->
                          DT.day m = DT.day month_end))
            [ DT.mk 2003 1 31 36000; DT.mk 2003 4 30 36000;
              DT.mk 2003 7 30 36000; DT.mk 2003 10 30 36000;
              DT.mk 2004 1 30 36000; DT.mk 2004 4 30 36000;
              DT.mk 2004 7 30 36000; DT.mk 2004 10 30 36000;
              DT.mk 2005 1 30 36000; DT.mk 2005 4 30 36000 ]
  /\ StronglySorted (fun a b => DT.day b <= DT.day a)
       [ DT.mk 2003 1 31 36000; DT.mk 2003 4 30 36000;
         DT.mk 2003 7 30 36000; DT.mk 2003 10 30 36000;
         DT.mk 2004 1 30 36000; DT.mk 2004 4 30 36000;
         DT.mk 2004 7 30 36000; DT.mk 2004 10 30 36000;
         DT.mk 2005 1 30 36000; DT.mk 2005 4 30 36000 ].
Proof.
  assert (valid_datetime month_end) as Hs
      by (vm_compute; intuition discriminate).
  assert (marks_loop (marks_fuel month_end last_order) month_end last_order
          = Some (inr [ DT.mk 2003 1 31 36000; DT.mk 2003 4 30 36000;
                        DT.mk 2003 7 30 36000; DT.mk 2003 10 30 36000;
                        DT.mk 2004 1 30 36000; DT.mk 2004 4 30 36000;
                        DT.mk 2004 7 30 36000; DT.mk 2004 10 30 36000;
                        DT.mk 2005 1 30 36000; DT.mk 2005 4 30 36000 ]))
    as Hr by (vm_compute; reflexivity).
  split; [exact Hs|]. split; [exact Hr|].
  exact (get_marks_days month_end last_order _ Hs Hr).
Defined.

(** X23. A start in the last quarter of the year 9999 that is not after
    the end makes [get_marks] raise: the mark after it would fall in the
    year 10000, which [datetime] refuses. *)
Theorem get_marks_raises_past_9999 (start end_ : DT.t) :
  dt_leb start end_ = true ->
  DT.year start = 9999 ->
  10 <= DT.month start ->
  get_marks start end_ = Some (inl (ValueError "year 10000 is out of range")).
Proof.
  intros L Hy Hm. unfold get_marks, marks_fuel. cbn [marks_loop].
  rewrite L. unfold plus_three_months.
  destruct (Z.gtb_spec (DT.month start + 3) 12) as [_|H]; [|lia].
  destruct (Z.gtb_spec (DT.year start + 1) 9999) as [_|H]; [|lia].
  reflexivity.
Qed.

Lemma get_marks_raises_past_9999_witness :
  dt_leb last_quarter (DT.mk 9999 12 31 0) = true
  /\ DT.year last_quarter = 9999
  /\ 10 <= DT.month last_quarter
  /\ get_marks last_quarter (DT.mk 9999 12 31 0)
     = Some (inl (ValueError "year 10000 is out of range")).
Proof.
  assert (dt_leb last_quarter (DT.mk 9999 12 31 0) = true) as L
      by (vm_compute; reflexivity).
  assert (10 <= DT.month last_quarter) as Hm by (vm_compute; discriminate).
  split; [exact L|]. split; [reflexivity|]. split; [exact Hm|].
  exact (get_marks_raises_past_9999 last_quarter (DT.mk 9999 12 31 0)
           L eq_refl Hm).
Defined.

(** ** Timestamps *)

Lemma days_before_year_next (y : Z) :
  days_before_year (y + 1)
  = days_before_year y + 365 + (if is_leap y then 1 else 0).
Proof.
  unfold days_before_year, is_leap. replace (y + 1 - 1) with y by ring.
  destruct (Z.eqb_spec (y mod 4) 0), (Z.eqb_spec (y mod 100) 0),
           (Z.eqb_spec (y mod 400) 0); simpl;
    Z.div_mod_to_equations; lia.
Qed.

Lemma days_before_year_mono (y1 y2 : Z) :
  y1 <= y2 -> days_before_year y1 <= days_before_year y2.
Proof. unfold days_before_year. intros H. Z.div_mod_to_equations. lia. Qed.

Ltac month_cases m :=
  let H := fresh "Hcase" in
  assert (m = 1 \/ m = 2 \/ m = 3 \/ m = 4 \/ m = 5 \/ m = 6 \/ m = 7
          \/ m = 8 \/ m = 9 \/ m = 10 \/ m = 11 \/ m = 12) as H by lia;
  repeat (destruct H as [H|H]); subst m.

Lemma days_before_month_year (y m : Z) :
  1 <= m <= 12 ->
  0 <= days_before_month y m
  /\ days_before_month y m + days_in_month y m
     <= 365 + (if is_leap y then 1 else 0).
Proof.
  intros Hm. month_cases m;
    unfold days_before_month, days_in_month; simpl;
    destruct (is_leap y); lia.
Qed.

Lemma days_before_month_next (y m : Z) :
  1 <= m < 12 ->
  days_before_month y (m + 1) = days_before_month y m + days_in_month y m.
Proof.
  intros Hm. month_cases m; try lia;
    unfold days_before_month, days_in_month; simpl;
    destruct (is_leap y); lia.
Qed.

Lemma days_before_month_mono (y m1 m2 : Z) :
  1 <= m1 -> m1 <= m2 -> m2 <= 12 ->
  days_before_month y m1 <= days_before_month y m2.
Proof.
  intros H1 H12 H2.
  replace m2 with (m1 + Z.of_nat (Z.to_nat (m2 - m1))) by lia.
  assert (m1 + Z.of_nat (Z.to_nat (m2 - m1)) <= 12) as Hb by lia.
  induction (Z.to_nat (m2 - m1)) as [|k IH]; [rewrite Z.add_0_r; lia|].
  rewrite Nat2Z.inj_succ in *.
  replace (m1 + Z.succ (Z.of_nat k)) with (m1 + Z.of_nat k + 1) by lia.
  rewrite days_before_month_next by lia.
  pose proof (days_in_month_bounds y (m1 + Z.of_nat k)).
  specialize (IH ltac:(lia)). lia.
Qed.

Lemma ordinal_lt (a b : DT.t) :
  valid_datetime a -> valid_datetime b ->
  DT.year a < DT.year b
  \/ (DT.year a = DT.year b
      /\ (DT.month a < DT.month b
          \/ (DT.month a = DT.month b /\ DT.day a < DT.day b))) ->
  ordinal a < ordinal b.
Proof.
  intros [Hya [Hma [Hda _]]] [Hyb [Hmb [Hdb _]]] H. unfold ordinal.
  destruct (days_before_month_year (DT.year a) (DT.month a) Hma)
    as [Ha0 Ha1].
  destruct (days_before_month_year (DT.year b) (DT.month b) Hmb)
    as [Hb0 Hb1].
  destruct H as [Hy|[Hy [Hm|[Hm Hd]]]].
  - pose proof (days_before_year_next (DT.year a)) as Hn.
    pose proof (days_before_year_mono (DT.year a + 1) (DT.year b)
                  ltac:(lia)).
    lia.
  - rewrite <- Hy in *.
    pose proof (days_before_month_mono (DT.year a) (DT.month a + 1)
                  (DT.month b) ltac:(lia) ltac:(lia) ltac:(lia)) as Hmono.
    rewrite days_before_month_next in Hmono by lia. lia.
  - rewrite Hy, Hm. lia.
Qed.

Lemma timestamp_lt (a b : DT.t) :
  valid_datetime a -> valid_datetime b ->
  dt_leb a b = true -> dt_leb b a = false ->
  timestamp a < timestamp b.
Proof.
  intros Ha Hb L N. apply dt_leb_cases in L.
  assert (~ (DT.year a = DT.year b /\ DT.month a = DT.month b
             /\ DT.day a = DT.day b /\ DT.second b <= DT.second a)) as Hne.
  { intros [E1 [E2 [E3 E4]]].
    assert (dt_leb b a = true) as C by (apply dt_leb_cases; lia).
    congruence. }
  unfold timestamp.
  destruct Ha as [Hya [Hma [Hda Hsa]]]. destruct Hb as [Hyb [Hmb [Hdb Hsb]]].
  assert (valid_datetime a) as Va by (repeat split; lia).
  assert (valid_datetime b) as Vb by (repeat split; lia).
  destruct L as [Hy|[Hy [Hm|[Hm [Hd|[Hd Hs]]]]]].
  - pose proof (ordinal_lt a b Va Vb (or_introl Hy)). lia.
  - pose proof (ordinal_lt a b Va Vb (or_intror (conj Hy (or_introl Hm)))).
    lia.
  - pose proof (ordinal_lt a b Va Vb
                  (or_intror (conj Hy (or_intror (conj Hm Hd))))).
    lia.
  - unfold ordinal. rewrite Hy, Hm, Hd. lia.
Qed.

Lemma timestamp_le (a b : DT.t) :
  valid_datetime a -> valid_datetime b ->
  dt_leb a b = true -> timestamp a <= timestamp b.
Proof.
  intros Ha Hb L. destruct (dt_leb b a) eqn:N.
  - apply dt_leb_cases in L. apply dt_leb_cases in N.
    assert (DT.year a = DT.year b /\ DT.month a = DT.month b
            /\ DT.day a = DT.day b /\ DT.second a = DT.second b)
      as [E1 [E2 [E3 E4]]] by lia.
    unfold timestamp, ordinal. rewrite E1, E2, E3, E4. lia.
  - pose proof (timestamp_lt a b Ha Hb L N). lia.
Qed.

Lemma dict_set_fresh (k : Z) (v : string) (d : list (Z * string)) :
  ~ In k (map fst d) -> dict_set k v d = d ++ [(k, v)].
Proof.
  induction d as [|[k' v'] t IH]; simpl; intros N; [reflexivity|].
  destruct (Z.eqb_spec k' k) as [E|_]; [exfalso; apply N; now left|].
  f_equal. apply IH. intros I. apply N. now right.
Qed.

(** Marks with pairwise different timestamps each get their own entry. *)
Lemma marks_dict_distinct (ms : list DT.t) :
  NoDup (map timestamp ms) -> marks_dict ms = map mark_item ms.
Proof.
  unfold marks_dict.
  assert (forall acc,
             NoDup (map fst acc ++ map timestamp ms) ->
             fold_left (fun d m => dict_set (timestamp m) (strftime_Y_m m) d)
                       ms acc
             = acc ++ map mark_item ms) as Hgen.
  { induction ms as [|m t IH]; intros acc Hnd; simpl.
    - now rewrite app_nil_r.
    - simpl in Hnd.
      rewrite dict_set_fresh.
      + rewrite IH.
        * rewrite <- app_assoc. reflexivity.
        * rewrite map_app. simpl. rewrite <- app_assoc. exact Hnd.
      + intros I. apply NoDup_remove_2 in Hnd. apply Hnd.
        apply in_or_app. now left. }
  intros Hnd. apply (Hgen [] Hnd).
Qed.

Lemma marks_loop_timestamps (fuel : nat) (current end_ : DT.t)
  (ms : list DT.t) :
  valid_datetime current -> valid_month end_ ->
  marks_loop fuel current end_ = Some (inr ms) ->
  StronglySorted Z.lt (map timestamp ms).
Proof.
  intros Hc He. revert current ms Hc.
  induction fuel as [|fuel IH]; intros current ms Hc E;
    apply marks_loop_inr in E;
    destruct E as [[L ->]|[L [fuel' [next [rest [Ef [En [Er ->]]]]]]]];
    try discriminate; try solve [constructor].
  inversion Ef; subst fuel'; clear Ef.
  pose proof (valid_datetime_month current Hc) as Hcm.
  pose proof (plus_three_months_valid current next Hc En) as Hn.
  destruct (plus_three_months_inr current next Hcm En) as [Hnm [Hi _]].
  destruct (marks_loop_days fuel next end_ rest Hn Er) as [Hvalid _].
  destruct (marks_loop_content fuel next end_ rest Hnm He Er)
    as [_ [_ [Hall _]]].
  simpl. constructor; [now apply (IH next)|].
  apply Forall_forall. intros z Iz. apply in_map_iff in Iz.
  destruct Iz as [m [<- Im]].
  rewrite Forall_forall in Hvalid, Hall.
  destruct (Hvalid m Im) as [Vm _]. destruct (Hall m Im) as [Hm [Hmi _]].
  destruct (month_index_dt_lt current m Hcm Hm ltac:(lia)) as [L1 L2].
  now apply timestamp_lt.
Qed.

Lemma strictly_sorted_NoDup (l : list Z) : StronglySorted Z.lt l -> NoDup l.
Proof.
  induction 1 as [|h t Ht IH Hh]; constructor; [|exact IH].
  intros I. rewrite Forall_forall in Hh. specialize (Hh h I). lia.
Qed.



Example get_marks_sample :
  get_marks first_order (DT.mk 2003 8 1 0)
  = Some (inr [ (1041811200, "2003-01"); (1049587200, "2003-04");
                (1057449600, "2003-07") ]).
Proof. vm_compute. reflexivity. Qed.

(* ================================================================= *)
(** * The first and the last day *)

(** X17. The time series has a row dated [MIN_TIME], the date of the
    earliest sale, and [timeline] draws no point at that date unless the
    window starts before it: whenever [start], the datetime the lower
    slider value converts to, is not before [MIN_TIME], no series holds a
    point dated [MIN_TIME]. *)
Theorem earliest_row_never_drawn
  (boxes : option (list string)) (start finish : Z) (db : Database)
  (lo hi : Z) (series : list Scatter.t) :
  fst (get_data_timerange db) = inr (Some lo, Some hi) ->
  lo <= start ->
  timeline_data boxes start finish (timeseries_query db) = inr series ->
  (exists r, In r (timeseries_query db) /\ TS.dt r = lo)
  /\ (forall s, In s series -> ~ In lo (Scatter.x s)).
Proof.
  unfold get_data_timerange. cbn [fst]. intros Hr Hlo Hs.
  destruct (timerange_query_cases db) as [[_ E]|[Hne E]];
    rewrite E in Hr; [discriminate|].
  inversion Hr; subst lo hi; clear Hr.
  split; [now apply timeseries_query_earliest|].
  intros s Is Id.
  assert (fst (timeline boxes [start; finish] db)
          = inr (mkFigure series [("title", LStr "Sales Over Time")]))
    as Hfig by (rewrite timeline_run; cbn [fst]; now rewrite Hs).
  pose proof (timeline_dates_in_range boxes start finish db _ Hfig
                s _ Is Id).
  lia.
Qed.

Lemma earliest_row_never_drawn_witness :
  fst (get_data_timerange sample_db) = inr (Some jan06, Some feb11)
  /\ jan06 <= jan06
  /\ timeline_data None jan06 (feb11 + 1) (timeseries_query sample_db)
     = inr [ Scatter.mk [jan14; feb11] [8100; 2754]
                        [PeriodId 3 2003; PeriodId 7 2003] "markers" None ]
  /\ (exists r, In r (timeseries_query sample_db) /\ TS.dt r = jan06)
  /\ (forall s,
         In s [ Scatter.mk [jan14; feb11] [8100; 2754]
                           [PeriodId 3 2003; PeriodId 7 2003] "markers"
                           None ] ->
         ~ In jan06 (Scatter.x s)).
Proof.
  assert (jan06 <= jan06) as Hlo by (vm_compute; discriminate).
  split; [reflexivity|]. split; [exact Hlo|]. split; [reflexivity|].
  exact (earliest_row_never_drawn None jan06 (feb11 + 1) sample_db
           jan06 feb11 _ eq_refl Hlo eq_refl).
Defined.

Lemma window_without_dates (lo hi start finish : Z) (db : Database) :
  lo <= start -> finish <= hi ->
  filter (in_window start finish) (without_dates lo hi db)
  = filter (in_window start finish) db.
Proof.
  intros Hlo Hhi. unfold without_dates. apply filter_implied.
  intros f Hf. apply in_window_spec in Hf.
  destruct (Z.eqb_spec (Fact.dt f) lo), (Z.eqb_spec (Fact.dt f) hi);
    try reflexivity; lia.
Qed.

(** X18. The sales of the first and of the last day are in the table but
    reach no row of the two product statements for a window inside the
    range of the data: with [MIN_TIME <= start] and [finish <= MAX_TIME]
    both statements return what they return on the table without the
    sales dated [MIN_TIME] or [MAX_TIME]. *)
Theorem boundary_sales_never_counted
  (db : Database) (n : nat) (start finish lo hi : Z) :
  fst (get_data_timerange db) = inr (Some lo, Some hi) ->
  lo <= start ->
  finish <= hi ->
  (exists f, In f db /\ Fact.dt f = lo)
  /\ (exists f, In f db /\ Fact.dt f = hi)
  /\ top_products_query db n start finish
     = top_products_query (without_dates lo hi db) n start finish
  /\ top_products_by_country_query db n start finish
     = top_products_by_country_query (without_dates lo hi db) n start finish.
Proof.
  unfold get_data_timerange. cbn [fst]. intros Hr Hlo Hhi.
  destruct (timerange_query_cases db) as [[_ E]|[Hne E]];
    rewrite E in Hr; [discriminate|].
  inversion Hr; subst lo hi; clear Hr.
  assert (map Fact.dt db <> []) as Hm
      by (intros En; apply map_eq_nil in En; contradiction).
  split; [|split].
  - pose proof (min_list_In _ Hm) as I. apply in_map_iff in I.
    destruct I as [f [Ef If]]. now exists f.
  - pose proof (max_list_In _ Hm) as I. apply in_map_iff in I.
    destruct I as [f [Ef If]]. now exists f.
  - unfold top_products_by_country_query, top_ranked, ranked_products,
      products_per_country, top_products_query.
    rewrite (window_without_dates _ _ start finish db Hlo Hhi).
    split; reflexivity.
Qed.

Lemma boundary_sales_never_counted_witness :
  fst (get_data_timerange sample_db) = inr (Some jan06, Some feb11)
  /\ jan06 <= jan06
  /\ feb11 <= feb11
  /\ (exists f, In f sample_db /\ Fact.dt f = jan06)
  /\ (exists f, In f sample_db /\ Fact.dt f = feb11)
  /\ top_products_query sample_db 5 jan06 feb11
     = top_products_query (without_dates jan06 feb11 sample_db) 5 jan06 feb11
  /\ top_products_by_country_query sample_db 3 jan06 feb11
     = top_products_by_country_query (without_dates jan06 feb11 sample_db)
                                     3 jan06 feb11.
Proof.
  assert (jan06 <= jan06) as Hlo by (vm_compute; discriminate).
  assert (feb11 <= feb11) as Hhi by (vm_compute; discriminate).
  split; [reflexivity|]. split; [exact Hlo|]. split; [exact Hhi|].
  split; [|split].
  - exact (proj1 (boundary_sales_never_counted sample_db 5 jan06 feb11
                    jan06 feb11 eq_refl Hlo Hhi)).
  - exact (proj1 (proj2 (boundary_sales_never_counted sample_db 5 jan06
                           feb11 jan06 feb11 eq_refl Hlo Hhi))).
  - split.
    + exact (proj1 (proj2 (proj2 (boundary_sales_never_counted
                                    sample_db 5 jan06 feb11 jan06 feb11
                                    eq_refl Hlo Hhi)))).
    + exact (proj2 (proj2 (proj2 (boundary_sales_never_counted
                                    sample_db 3 jan06 feb11 jan06 feb11
                                    eq_refl Hlo Hhi)))).
Defined.

(* ================================================================= *)
(** * The checkbox *)

Lemma contains_by_country (l : list string) :
  existsb (String.eqb "by_country") l = true <-> In "by_country" l.
Proof.
  rewrite existsb_exists. split.
  - intros [x [I E]]. apply String.eqb_eq in E. now subst.
  - intros I. exists "by_country". split; [exact I|apply String.eqb_refl].
Qed.

Lemma split_by_country_true (boxes : option (list string)) :
  split_by_country boxes = true <->
  exists l, boxes = Some l /\ l <> [] /\ In "by_country" l.
Proof.
  destruct boxes as [[|h t]|]; unfold split_by_country.
  - split; [discriminate|]. intros [l [E [N _]]]. congruence.
  - rewrite contains_by_country. split.
    + intros I. exists (h :: t). repeat split; [discriminate|exact I].
    + intros [l [E [_ I]]]. now inversion E; subst.
  - split; [discriminate|]. intros [l [E _]]. discriminate.
Qed.

Lemma split_by_country_false (boxes : option (list string)) :
  split_by_country boxes = false <->
  boxes = None \/ boxes = Some []
  \/ exists l, boxes = Some l /\ ~ In "by_country" l.
Proof.
  split.
  - intros Hf. destruct boxes as [[|h t]|]; auto.
    right. right. exists (h :: t). split; [reflexivity|].
    intros I. apply contains_by_country in I.
    unfold split_by_country in Hf. congruence.
  - intros Hc. apply not_true_iff_false. intros E.
    apply split_by_country_true in E. destruct E as [l [E [Hne Hin]]].
    destruct Hc as [Hc|[Hc|[l' [Hc Hn]]]]; congruence.
Qed.

Lemma named_series {A B} (name : A -> option B) (l : list A)
  (names : list B) :
  map name l = map Some names -> Forall (fun a => name a <> None) l.
Proof.
  revert names. induction l as [|a t IH]; intros [|b names] E;
    simpl in E; try discriminate; constructor.
  - inversion E as [[Ea Et]]. rewrite Ea. discriminate.
  - inversion E as [[Ea Et]]. now apply (IH names).
Qed.

(** C10. The split branch is taken exactly when the checklist value is a
    non-empty list that contains ["by_country"].  For such a value
    [timeline] draws the per-country series of the filtered frame and
    [products] the per-product series of [top_products_by_country_query]
    with three rows per country, and every series of a returned figure is
    named.  For [None], the empty list and every list without
    ["by_country"], [timeline] draws the per-period aggregate and
    [products] the rows of [top_products_query] with limit five, and a
    returned figure holds exactly one series, without a name. *)
Theorem checkbox_selects_branch
  (boxes : option (list string)) (start finish : Z) (db : Database) :
  (split_by_country boxes = true <->
   exists l, boxes = Some l /\ l <> [] /\ In "by_country" l)
  /\ (split_by_country boxes = false <->
      boxes = None \/ boxes = Some []
      \/ exists l, boxes = Some l /\ ~ In "by_country" l)
  /\ ((exists l, boxes = Some l /\ l <> [] /\ In "by_country" l) ->
      fst (timeline boxes [start; finish] db)
      = timeline_figure
          (df <-? filter_window start finish
                    (DataFrame_of ts_columns (timeseries_query db)) ;;
           timeline_by_country df)
      /\ fst (products boxes [start; finish] db)
         = products_figure
             (products_by_country
                (top_products_by_country_query db 3 start finish))
      /\ (forall fig, fst (timeline boxes [start; finish] db) = inr fig ->
                      Forall (fun s => Scatter.name s <> None) (data fig))
      /\ (forall fig, fst (products boxes [start; finish] db) = inr fig ->
                      Forall (fun b => Bar.name b <> None) (data fig)))
  /\ ((boxes = None \/ boxes = Some []
       \/ exists l, boxes = Some l /\ ~ In "by_country" l) ->
      fst (timeline boxes [start; finish] db)
      = timeline_figure
          (df <-? filter_window start finish
                    (DataFrame_of ts_columns (timeseries_query db)) ;;
           timeline_aggregate df)
      /\ fst (products boxes [start; finish] db)
         = products_figure
             (products_aggregate (top_products_query db 5 start finish))
      /\ (forall fig, fst (timeline boxes [start; finish] db) = inr fig ->
                      exists s, data fig = [s] /\ Scatter.name s = None)
      /\ (forall fig, fst (products boxes [start; finish] db) = inr fig ->
                      exists b, data fig = [b] /\ Bar.name b = None)).
Proof.
  split; [apply split_by_country_true|].
  split; [apply split_by_country_false|].
  rewrite timeline_run, products_run. cbn [fst].
  set (dat := timeseries_query db).
  split; intros Hc.
  - apply split_by_country_true in Hc.
    split; [unfold timeline_data; now rewrite Hc|].
    split; [now rewrite Hc|]. split.
    + intros fig Hfig.
      destruct (timeline_data boxes start finish dat) as [e|series] eqn:E;
        [discriminate|].
      inversion Hfig; subst fig; clear Hfig. cbn [data].
      assert (dat <> []) as Hd
          by (intros Hn; rewrite Hn, timeline_data_empty in E; discriminate).
      rewrite (timeline_split_data boxes start finish dat Hc Hd) in E.
      inversion E; subst series; clear E.
      apply Forall_forall. intros s Is. apply in_map_iff in Is.
      destruct Is as [cg [<- _]]. discriminate.
    + intros fig Hfig. rewrite Hc in Hfig.
      destruct (top_products_by_country_query db 3 start finish)
        as [|r t] eqn:Er; [discriminate|].
      destruct (products_by_country_one_series_per_product (r :: t))
        as [series [names [Es [Hn _]]]]; [discriminate|].
      rewrite Es in Hfig. inversion Hfig; subst fig; clear Hfig. cbn [data].
      exact (named_series Bar.name series names Hn).
  - apply split_by_country_false in Hc.
    split; [unfold timeline_data; now rewrite Hc|].
    split; [now rewrite Hc|]. split.
    + intros fig Hfig.
      destruct (timeline_data boxes start finish dat) as [e|series] eqn:E;
        [discriminate|].
      inversion Hfig; subst fig; clear Hfig. cbn [data].
      assert (dat <> []) as Hd
          by (intros Hn; rewrite Hn, timeline_data_empty in E; discriminate).
      destruct (timeline_aggregate_ok (window_frame start finish dat) eq_refl)
        as [s [Hs [_ [_ Hname]]]].
      rewrite (timeline_data_nonempty _ _ _ _ Hd), Hc, Hs in E.
      inversion E; subst series; clear E. now exists s.
    + intros fig Hfig. rewrite Hc in Hfig.
      destruct (top_products_query db 5 start finish) as [|r t] eqn:Er;
        [discriminate|].
      destruct (products_aggregate_one_series (r :: t))
        as [b [Eb [_ [_ Hname]]]]; [discriminate|].
      rewrite Eb in Hfig. inversion Hfig; subst fig; clear Hfig. cbn [data].
      now exists b.
Qed.
